(** * FP-PBKK backend: authentication, ownership guards and pagination

    A shallow embedding of the NestJS services of the backend
    (auth.service.ts, jwt.strategy.ts, prisma-error.handler.ts,
    mail.service.ts, posts.service.ts, posts.controller.ts) together with
    the properties the specification states about them.

    Every [async] method becomes a computation in the monad [M]: a function
    from the state of the world (database tables, clock, entropy, log) to an
    outcome (a returned value or a thrown exception) and the next world.
    A write that happened before a [throw] stays written, as in the source:
    there is no transaction around any handler. *)

From Stdlib Require Import List String Ascii Bool Arith ZArith Lia.
From Stdlib Require Import Sorting.Sorted Sorting.Permutation.
From Stdlib Require Import DecimalString.
Import ListNotations.
Local Open Scope string_scope.
Local Open Scope list_scope.

(** ** Exceptions *)

(** The members of [HttpStatus] that the backend raises. *)
Inductive HttpStatus : Type :=
| BAD_REQUEST
| UNAUTHORIZED
| FORBIDDEN
| NOT_FOUND
| CONFLICT
| INTERNAL_SERVER_ERROR.

(** Numeric code of a status, as sent on the wire. *)
Definition status_code (s : HttpStatus) : nat :=
  match s with
  | BAD_REQUEST => 400
  | UNAUTHORIZED => 401
  | FORBIDDEN => 403
  | NOT_FOUND => 404
  | CONFLICT => 409
  | INTERNAL_SERVER_ERROR => 500
  end.

(** Everything a handler can throw: a Nest [HttpException] (message, status),
    a known request error of Prisma (code, [meta.target]) or any other
    JavaScript error, of which only the message is kept.

    Prisma's known request error exists as two classes.
    [PrismaClientKnownRequestError] is the class that
    [prisma-error.handler.ts] imports from [@prisma/client/runtime/library].
    [ClientKnownRequestError] is the class of the same name in the runtime of
    the client generated at [../generated/client], the client that
    [DatabaseService] extends: every error of the store is of this class.
    An object of one class is not an [instanceof] the other. *)
Inductive Exception : Type :=
| HttpException (message : string) (status : HttpStatus)
| PrismaClientKnownRequestError (code : string) (target : option string)
| ClientKnownRequestError (code : string) (target : option string)
| Error (message : string).

Definition ConflictException (msg : string) : Exception := HttpException msg CONFLICT.
Definition UnauthorizedException (msg : string) : Exception := HttpException msg UNAUTHORIZED.
Definition ForbiddenException (msg : string) : Exception := HttpException msg FORBIDDEN.
Definition NotFoundException (msg : string) : Exception := HttpException msg NOT_FOUND.

(** [error.message] *)
Definition message_of (e : Exception) : string :=
  match e with
  | HttpException m _ => m
  | PrismaClientKnownRequestError c _ => "Prisma error " ++ c
  | ClientKnownRequestError c _ => "Prisma error " ++ c
  | Error m => m
  end.

(** ** Records of the store (fields as the test fixtures list them) *)

(** Identifiers are opaque unique values handed out by the store. *)
Definition Id : Type := nat.

Module User.
Record t : Type := mk {
  id : Id;
  email : string;
  name : string;
  password : string;
  refreshToken : option string;
  createdAt : N;
  updatedAt : N
}.
End User.

Module Post.
Record t : Type := mk {
  id : Id;
  title : string;
  content : string;
  published : bool;
  authorId : Id;
  fileUrl : option string;
  createdAt : N;
  updatedAt : N
}.
End Post.

Module Reply.
Record t : Type := mk {
  id : Id;
  content : string;
  postId : Id;
  authorId : Id;
  createdAt : N
}.
End Reply.

(** [select: { id: true, email: true, name: true }] *)
Module Author.
Record t : Type := mk {
  id : Id;
  email : string;
  name : string
}.
End Author.

Definition author_of (u : User.t) : Author.t :=
  Author.mk (User.id u) (User.email u) (User.name u).

(** ** The world *)

(** [process.env], as far as the services read it. *)
Record ProcessEnv : Type := mkEnv {
  JWT_SECRET : option string;
  JWT_REFRESH_SECRET : option string
}.

Inductive LogLevel : Type := LOG | ERROR.

Record LogLine : Type := mkLog {
  level : LogLevel;
  text : string
}.

Record World : Type := mkWorld {
  users : list User.t;
  posts : list Post.t;
  replies : list Reply.t;
  next_id : Id;          (* the store's identifier supply *)
  clock : N;             (* current time, in seconds *)
  entropy : nat;         (* the next salt bcrypt will draw *)
  env : ProcessEnv;
  logs : list LogLine
}.

Definition set_users (us : list User.t) (w : World) : World :=
  mkWorld us (posts w) (replies w) (next_id w) (clock w) (entropy w) (env w) (logs w).
Definition set_posts (ps : list Post.t) (w : World) : World :=
  mkWorld (users w) ps (replies w) (next_id w) (clock w) (entropy w) (env w) (logs w).
Definition set_replies (rs : list Reply.t) (w : World) : World :=
  mkWorld (users w) (posts w) rs (next_id w) (clock w) (entropy w) (env w) (logs w).
Definition set_next_id (n : Id) (w : World) : World :=
  mkWorld (users w) (posts w) (replies w) n (clock w) (entropy w) (env w) (logs w).
Definition set_clock (n : N) (w : World) : World :=
  mkWorld (users w) (posts w) (replies w) (next_id w) n (entropy w) (env w) (logs w).
Definition set_entropy (n : nat) (w : World) : World :=
  mkWorld (users w) (posts w) (replies w) (next_id w) (clock w) n (env w) (logs w).
Definition set_logs (l : list LogLine) (w : World) : World :=
  mkWorld (users w) (posts w) (replies w) (next_id w) (clock w) (entropy w) (env w) l.

(** ** The monad of handlers *)

Inductive Outcome (A : Type) : Type :=
| Return (a : A)
| Throw (e : Exception).
Arguments Return {A} a.
Arguments Throw {A} e.

Definition M (A : Type) : Type := World -> Outcome A * World.

Definition ret {A} (a : A) : M A := fun w => (Return a, w).

Definition throw {A} (e : Exception) : M A := fun w => (Throw e, w).

Definition bind {A B} (m : M A) (k : A -> M B) : M B :=
  fun w =>
    match m w with
    | (Return a, w') => k a w'
    | (Throw e, w') => (Throw e, w')
    end.

(** [try { m } catch (error) { h error }] *)
Definition try_catch {A} (m : M A) (h : Exception -> M A) : M A :=
  fun w =>
    match m w with
    | (Return a, w') => (Return a, w')
    | (Throw e, w') => h e w'
    end.

(** A call of an [async] method whose promise is not awaited: its effects
    happen, its result or rejection reaches nobody. *)
Definition detach {A} (m : M A) : M unit :=
  fun w => (Return tt, snd (m w)).

Definition gets {A} (f : World -> A) : M A := fun w => (Return (f w), w).

Definition modify (f : World -> World) : M unit := fun w => (Return tt, f w).

Declare Scope handler_scope.
Delimit Scope handler_scope with handler.
Notation "x <- m ;; k" := (bind m (fun x => k))
  (at level 61, m at next level, right associativity) : handler_scope.
Notation "m ;; k" := (bind m (fun _ => k))
  (at level 61, right associativity) : handler_scope.
Local Open Scope handler_scope.

(** [logger.log], [logger.error], [console.error] *)
Definition logger_log (s : string) : M unit :=
  modify (fun w => set_logs (logs w ++ [mkLog LOG s]) w).
Definition logger_error (s : string) : M unit :=
  modify (fun w => set_logs (logs w ++ [mkLog ERROR s]) w).

(** JavaScript's [a || b] on an optional string: the empty string is falsy. *)
Definition or_else (a : option string) (b : option string) : option string :=
  match a with
  | Some s => if String.eqb s EmptyString then b else Some s
  | None => b
  end.

(** ** External libraries the services are written against *)

Record JwtPayload : Type := mkPayload {
  sub : Id;
  email : string
}.

(** What a signed token carries: the payload and the two timestamps the
    signer adds. *)
Record JwtClaims : Type := mkClaims {
  payload : JwtPayload;
  iat : N;
  exp : N
}.

(** The injected [JwtService]: a symmetric signature scheme. [jwt_encode]
    serialises and signs claims under a secret; [jwt_decode] checks the
    signature under a secret and parses the claims. [module_secret] is the
    secret the service was registered with in the auth module (the
    fallback of [verify] when the call gives none). *)
Class JwtService : Type := {
  jwt_encode : JwtClaims -> string -> string;
  jwt_decode : string -> string -> option JwtClaims;
  module_secret : option string
}.

(** The [bcrypt] package: [hash(data, rounds)] draws a salt; [compare]. *)
Class Bcrypt : Type := {
  bcrypt_hash : string -> nat -> nat -> string;
  bcrypt_compare : string -> string -> bool
}.

(** What the Prisma schema and the database engine decide (the schema file
    is not part of the sources at hand): the default of [Post.published],
    whether deleting a post deletes its replies, whether a write stamps
    [updatedAt], and the substring match behind [contains]. *)
Class Datasource : Type := {
  published_default : bool;
  cascade_replies : bool;
  stamps_updatedAt : bool;
  contains : string -> string -> bool
}.

(** ** prisma-error.handler.ts *)

Module PrismaErrorHandler.

(** [`Duplicate field value: ${error.meta?.target}`] *)
Definition duplicate_message (target : option string) : string :=
  "Duplicate field value: " ++
  match target with
  | Some t => t
  | None => "undefined"
  end.

(** The exception [handlePrismaError] throws for [error]; the function
    never returns. *)
Definition translate (error : Exception) : Exception :=
  match error with
  | PrismaClientKnownRequestError code target =>
      if String.eqb code "P2002" then
        HttpException (duplicate_message target) CONFLICT
      else if String.eqb code "P2025" then
        HttpException "Record not found" NOT_FOUND
      else if String.eqb code "P2003" then
        HttpException "Foreign key constraint failed" BAD_REQUEST
      else
        HttpException "Database error occurred" INTERNAL_SERVER_ERROR
  | _ => error
  end.

Definition handlePrismaError {A} (error : Exception) : M A :=
  throw (translate error).

End PrismaErrorHandler.

(** ** The record store behind [DatabaseService] (the Prisma client) *)

Module Prisma.

Section Client.
Context {DS : Datasource}.

Definition P2002 (target : string) : Exception :=
  ClientKnownRequestError "P2002" (Some target).
Definition P2003 : Exception := ClientKnownRequestError "P2003" None.
Definition P2025 : Exception := ClientKnownRequestError "P2025" None.

(** The store's identifier generator. *)
Definition fresh_id : M Id :=
  fun w => (Return (next_id w), set_next_id (S (next_id w)) w).

(** *** user *)

Definition user_has_email (email : string) (u : User.t) : bool :=
  String.eqb (User.email u) email.
Definition user_has_id (id : Id) (u : User.t) : bool :=
  Nat.eqb (User.id u) id.

(** [db.user.findUnique({ where: { email } })] *)
Definition user_findUnique_email (email : string) : M (option User.t) :=
  gets (fun w => find (user_has_email email) (users w)).

(** [db.user.findUnique({ where: { id } })] *)
Definition user_findUnique_id (id : Id) : M (option User.t) :=
  gets (fun w => find (user_has_id id) (users w)).

(** [db.user.create({ data: { email, password, name } })]: the email column
    is unique. *)
Definition user_create (email password name : string) : M User.t :=
  existing <- user_findUnique_email email ;;
  match existing with
  | Some _ => throw (P2002 "email")
  | None =>
      id <- fresh_id ;;
      now <- gets clock ;;
      let user := User.mk id email name password None now now in
      modify (fun w => set_users (users w ++ [user]) w) ;;
      ret user
  end.

(** The [updatedAt] column after a write at [now]. *)
Definition stamp (now old : N) : N :=
  if stamps_updatedAt then now else old.

Definition with_refreshToken (rt : option string) (now : N) (u : User.t) : User.t :=
  User.mk (User.id u) (User.email u) (User.name u) (User.password u) rt
    (User.createdAt u) (stamp now (User.updatedAt u)).

(** [db.user.update({ where: { id }, data: { refreshToken } })] *)
Definition user_update_refreshToken (id : Id) (rt : option string) : M User.t :=
  found <- user_findUnique_id id ;;
  match found with
  | None => throw P2025
  | Some u =>
      now <- gets clock ;;
      modify (fun w =>
        set_users
          (map (fun x => if user_has_id id x then with_refreshToken rt now x else x)
               (users w)) w) ;;
      ret (with_refreshToken rt now u)
  end.

(** *** post *)

Definition post_has_id (id : Id) (p : Post.t) : bool :=
  Nat.eqb (Post.id p) id.

(** [include: { author: { select: { id, email, name } } }] *)
Definition include_author (authorId : Id) : M (option Author.t) :=
  found <- user_findUnique_id authorId ;;
  ret (option_map author_of found).

(** [db.post.findUnique({ where: { id } })] *)
Definition post_findUnique (id : Id) : M (option Post.t) :=
  gets (fun w => find (post_has_id id) (posts w)).

(** [db.post.create({ data, include: { author } })]: [authorId] is a
    foreign key into the users. *)
Definition post_create (title content : string) (published : option bool)
  (fileUrl : option string) (authorId : Id) : M (Post.t * Author.t) :=
  author <- user_findUnique_id authorId ;;
  match author with
  | None => throw P2003
  | Some u =>
      id <- fresh_id ;;
      now <- gets clock ;;
      let post :=
        Post.mk id title content
          (match published with Some b => b | None => published_default end)
          authorId fileUrl now now in
      modify (fun w => set_posts (posts w ++ [post]) w) ;;
      ret (post, author_of u)
  end.

(** [data: updatePostDto]: a field that is absent is left as it is. *)
Definition with_fields (title content : option string) (published : option bool)
  (now : N) (p : Post.t) : Post.t :=
  Post.mk (Post.id p)
    (match title with Some t => t | None => Post.title p end)
    (match content with Some c => c | None => Post.content p end)
    (match published with Some b => b | None => Post.published p end)
    (Post.authorId p) (Post.fileUrl p) (Post.createdAt p) (stamp now (Post.updatedAt p)).

(** [db.post.update({ where: { id }, data, include: { author } })] *)
Definition post_update (id : Id) (title content : option string)
  (published : option bool) : M (Post.t * option Author.t) :=
  found <- post_findUnique id ;;
  match found with
  | None => throw P2025
  | Some p =>
      now <- gets clock ;;
      modify (fun w =>
        set_posts
          (map (fun x => if post_has_id id x
                         then with_fields title content published now x else x)
               (posts w)) w) ;;
      author <- include_author (Post.authorId p) ;;
      ret (with_fields title content published now p, author)
  end.

(** [db.post.delete({ where: { id } })] *)
Definition post_delete (id : Id) : M Post.t :=
  found <- post_findUnique id ;;
  match found with
  | None => throw P2025
  | Some p =>
      modify (fun w =>
        set_posts (filter (fun x => negb (post_has_id id x)) (posts w)) w) ;;
      (if cascade_replies
       then modify (fun w =>
              set_replies
                (filter (fun r => negb (Nat.eqb (Reply.postId r) id)) (replies w)) w)
       else ret tt) ;;
      ret p
  end.

(** [orderBy: { createdAt: 'desc' }], as a stable insertion sort. *)
Fixpoint insert_desc (p : Post.t) (l : list Post.t) : list Post.t :=
  match l with
  | [] => [p]
  | q :: l' =>
      if N.leb (Post.createdAt q) (Post.createdAt p)
      then p :: q :: l'
      else q :: insert_desc p l'
  end.

Definition orderBy_createdAt_desc (l : list Post.t) : list Post.t :=
  fold_right insert_desc [] l.

(** [skip] and [take] of [findMany]: a negative [skip] is refused by the
    client's validation; a negative [take] counts from the end. *)
Definition window {A} (skip take : Z) (l : list A) : Outcome (list A) :=
  if (skip <? 0)%Z then
    Throw (Error "Invalid value for skip argument: Value can only be positive")
  else if (take <? 0)%Z then
    Return (rev (firstn (Z.to_nat (- take)) (skipn (Z.to_nat skip) (rev l))))
  else
    Return (firstn (Z.to_nat take) (skipn (Z.to_nat skip) l)).

(** An element of the list [findAll] returns: the post with
    [include: { author, _count: { replies } }]. *)
Record PostListItem : Type := mkItem {
  item_post : Post.t;
  item_author : option Author.t;
  item_count_replies : nat
}.

Definition list_item (w : World) (p : Post.t) : PostListItem :=
  mkItem p
    (option_map author_of (find (user_has_id (Post.authorId p)) (users w)))
    (List.length (filter (fun r => Nat.eqb (Reply.postId r) (Post.id p)) (replies w))).

(** [db.post.findMany({ where, skip, take, orderBy: { createdAt: 'desc' }, include })] *)
Definition post_findMany (where_ : Post.t -> bool) (skip take : Z) : M (list PostListItem) :=
  fun w =>
    match window skip take (orderBy_createdAt_desc (filter where_ (posts w))) with
    | Return page => (Return (map (list_item w) page), w)
    | Throw e => (Throw e, w)
    end.

(** [db.post.count({ where })] *)
Definition post_count (where_ : Post.t -> bool) : M nat :=
  gets (fun w => List.length (filter where_ (posts w))).

(** *** reply *)

Definition reply_has_id (id : Id) (r : Reply.t) : bool :=
  Nat.eqb (Reply.id r) id.

(** [db.reply.findUnique({ where: { id } })] *)
Definition reply_findUnique (id : Id) : M (option Reply.t) :=
  gets (fun w => find (reply_has_id id) (replies w)).

(** [db.reply.create({ data: { content, postId, authorId }, include: { author } })] *)
Definition reply_create (content : string) (postId authorId : Id) : M (Reply.t * Author.t) :=
  post <- post_findUnique postId ;;
  author <- user_findUnique_id authorId ;;
  match post, author with
  | Some _, Some u =>
      id <- fresh_id ;;
      now <- gets clock ;;
      let reply := Reply.mk id content postId authorId now in
      modify (fun w => set_replies (replies w ++ [reply]) w) ;;
      ret (reply, author_of u)
  | _, _ => throw P2003
  end.

(** [db.reply.delete({ where: { id } })] *)
Definition reply_delete (id : Id) : M Reply.t :=
  found <- reply_findUnique id ;;
  match found with
  | None => throw P2025
  | Some r =>
      modify (fun w =>
        set_replies (filter (fun x => negb (reply_has_id id x)) (replies w)) w) ;;
      ret r
  end.

(** [orderBy: { createdAt: 'asc' }] on replies, as a stable insertion sort. *)
Fixpoint insert_asc (r : Reply.t) (l : list Reply.t) : list Reply.t :=
  match l with
  | [] => [r]
  | q :: l' =>
      if N.leb (Reply.createdAt r) (Reply.createdAt q)
      then r :: q :: l'
      else q :: insert_asc r l'
  end.

Definition orderBy_createdAt_asc (l : list Reply.t) : list Reply.t :=
  fold_right insert_asc [] l.

(** A reply with [include: { author: { select: { id, name, email } } }]. *)
Record ReplyItem : Type := mkReplyItem {
  item_reply : Reply.t;
  item_reply_author : option Author.t
}.

(** A post with [include: { author, replies: { orderBy, include } }]. *)
Record PostDetail : Type := mkDetail {
  detail_post : Post.t;
  detail_author : option Author.t;
  detail_replies : list ReplyItem
}.

Definition reply_item (w : World) (r : Reply.t) : ReplyItem :=
  mkReplyItem r (option_map author_of (find (user_has_id (Reply.authorId r)) (users w))).

Definition replies_of (id : Id) (w : World) : list Reply.t :=
  filter (fun r => Nat.eqb (Reply.postId r) id) (replies w).

(** [db.post.findUnique({ where: { id }, include: { author, replies } })] *)
Definition post_findUnique_detail (id : Id) : M (option PostDetail) :=
  gets (fun w =>
    match find (post_has_id id) (posts w) with
    | None => None
    | Some p =>
        Some (mkDetail p
                (option_map author_of (find (user_has_id (Post.authorId p)) (users w)))
                (map (reply_item w) (orderBy_createdAt_asc (replies_of id w))))
    end).

End Client.
End Prisma.

(** ** mail.service.ts *)

Module MailService.

Record MailOptions : Type := mkOptions {
  from : string;
  to : string;
  subject : string;
  html : string
}.

(** What [sendMail] resolves with, and the preview address
    [nodemailer.getTestMessageUrl] derives from it. *)
Record SentMessageInfo : Type := mkInfo {
  info_messageId : string;
  info_testMessageUrl : string
}.

(** The service object. [transporter] is [None] when
    [initializeTransporter] failed and left the field undefined; otherwise
    it is the channel: for every message it resolves or rejects. *)
Record t : Type := mk {
  transporter : option (MailOptions -> Outcome SentMessageInfo)
}.

Record MailResult : Type := mkResult {
  messageId : string;
  previewUrl : string
}.

Definition dquote : string := String (ascii_of_nat 34) EmptyString.

Definition sender : string :=
  dquote ++ "Task Manager App" ++ dquote ++ " <noreply@taskmanager.com>".

(** An identifier as it prints inside a template literal. *)
Definition id_to_string (id : Id) : string := NilZero.string_of_uint (Nat.to_uint id).

(** [this.transporter.sendMail(options)] *)
Definition sendMail (svc : t) (options : MailOptions) : M SentMessageInfo :=
  match transporter svc with
  | None => throw (Error "Cannot read properties of undefined (reading 'sendMail')")
  | Some channel => fun w => (channel options, w)
  end.

(** The bodies, with the markup around the interpolated values left out. *)
Definition welcome_html (name : string) : string :=
  "Welcome to Task Manager! Hi " ++ name ++ ", Thank you for registering!".
Definition post_created_html (userName postTitle : string) (postId : Id) : string :=
  "Post Created Successfully! Hi " ++ userName ++ ", " ++ postTitle ++
  " Post ID: " ++ id_to_string postId.

Definition welcome_options (to name : string) : MailOptions :=
  mkOptions sender to "Welcome to Task Manager!" (welcome_html name).

Definition post_created_options (to userName postTitle : string) (postId : Id) : MailOptions :=
  mkOptions sender to
    ("Your post " ++ dquote ++ postTitle ++ dquote ++ " has been created!")
    (post_created_html userName postTitle postId).

Definition sendWelcomeEmail (svc : t) (to name : string) : M (option MailResult) :=
  try_catch
    (info <- sendMail svc (welcome_options to name) ;;
     logger_log ("Welcome email sent to " ++ to) ;;
     logger_log ("Preview URL: " ++ info_testMessageUrl info) ;;
     ret (Some (mkResult (info_messageId info) (info_testMessageUrl info))))
    (fun error =>
       logger_error ("Failed to send welcome email to " ++ to ++ ": " ++ message_of error) ;;
       (* Don't throw error - email failure shouldn't break registration *)
       ret None).

Definition sendPostCreatedEmail (svc : t) (to userName postTitle : string) (postId : Id)
  : M (option MailResult) :=
  try_catch
    (info <- sendMail svc (post_created_options to userName postTitle postId) ;;
     logger_log ("Post created email sent to " ++ to) ;;
     logger_log ("Preview URL: " ++ info_testMessageUrl info) ;;
     ret (Some (mkResult (info_messageId info) (info_testMessageUrl info))))
    (fun error =>
       logger_error ("Failed to send post created email to " ++ to ++ ": " ++ message_of error) ;;
       ret None).

Definition reply_notification_html
  (userName postTitle replyContent replierName : string) : string :=
  "New Reply on Your Post! Hi " ++ userName ++ ", " ++ replierName ++
  " replied to your post: " ++ postTitle ++ " " ++ dquote ++ replyContent ++ dquote ++
  " - " ++ replierName.

Definition reply_notification_options
  (to userName postTitle replyContent replierName : string) : MailOptions :=
  mkOptions sender to
    ("New reply on your post " ++ dquote ++ postTitle ++ dquote ++ " ")
    (reply_notification_html userName postTitle replyContent replierName).

Definition sendReplyNotificationEmail
  (svc : t) (to userName postTitle replyContent replierName : string)
  : M (option MailResult) :=
  try_catch
    (info <- sendMail svc
               (reply_notification_options to userName postTitle replyContent replierName) ;;
     logger_log ("Reply notification sent to " ++ to) ;;
     logger_log ("Preview URL: " ++ info_testMessageUrl info) ;;
     ret (Some (mkResult (info_messageId info) (info_testMessageUrl info))))
    (fun error =>
       logger_error ("Failed to send reply notification to " ++ to ++ ": " ++ message_of error) ;;
       ret None).

End MailService.

(** ** Calls into the libraries, as the services make them *)

Module Jwt.
Section Calls.
Context {J : JwtService}.

(** [jwtService.signAsync(payload, { expiresIn, secret })]: the signer
    stamps the claims with the current second and the expiry. *)
Definition signAsync (p : JwtPayload) (expiresIn : N) (secret : string) : M string :=
  now <- gets clock ;;
  ret (jwt_encode (mkClaims p now (now + expiresIn)%N) secret).

(** Signature check, then expiry check ([ignoreExpiration: false]) of a token
    under a given key. *)
Definition check (token key : string) (now : N) : option JwtClaims :=
  match jwt_decode token key with
  | Some c => if N.leb (exp c) now then None else Some c
  | None => None
  end.

(** [jwtService.verify(token, { secret })]: with no secret in the call the
    service falls back on the one it was registered with; any failure is an
    exception. *)
Definition verify (token : string) (secret : option string) : M JwtClaims :=
  match or_else secret module_secret with
  | None => throw (Error "secret or public key must be provided")
  | Some key =>
      now <- gets clock ;;
      match check token key now with
      | Some c => ret c
      | None => throw (Error "invalid or expired token")
      end
  end.

End Calls.
End Jwt.

Module bcrypt.
Section Calls.
Context {B : Bcrypt}.

(** [bcrypt.hash(data, rounds)] *)
Definition hash (data : string) (rounds : nat) : M string :=
  fun w => (Return (bcrypt_hash data rounds (entropy w)), set_entropy (S (entropy w)) w).

(** [bcrypt.compare(data, encrypted)] *)
Definition compare (data encrypted : string) : M bool :=
  ret (bcrypt_compare data encrypted).

End Calls.
End bcrypt.

(** ** auth.service.ts *)

Module RegisterDto.
Record t : Type := mk {
  email : string;
  password : string;
  name : string
}.
End RegisterDto.

Module LoginDto.
Record t : Type := mk {
  email : string;
  password : string
}.
End LoginDto.

Module Tokens.
Record t : Type := mk {
  accessToken : string;
  refreshToken : string
}.
End Tokens.

(** [{ user: { id, email, name }, ...tokens }] *)
Module AuthResult.
Record t : Type := mk {
  user : Author.t;
  accessToken : string;
  refreshToken : string
}.
End AuthResult.

Module Message.
Record t : Type := mk {
  message : string
}.
End Message.

Module AuthService.

(** [process.env.JWT_SECRET || 'your-secret-key-change-in-production'] *)
Definition access_secret (e : ProcessEnv) : string :=
  match or_else (JWT_SECRET e) None with
  | Some s => s
  | None => "your-secret-key-change-in-production"
  end.

(** [process.env.JWT_REFRESH_SECRET || 'your-refresh-secret-key'] *)
Definition refresh_secret (e : ProcessEnv) : string :=
  match or_else (JWT_REFRESH_SECRET e) None with
  | Some s => s
  | None => "your-refresh-secret-key"
  end.

Definition minutes_15 : N := 15 * 60.
Definition days_7 : N := 7 * 24 * 60 * 60.

Section Service.
Context {J : JwtService} {B : Bcrypt} {DS : Datasource}.
Variable mailService : MailService.t.

Definition generateTokens (userId : Id) (email : string) : M Tokens.t :=
  let payload := mkPayload userId email in
  e <- gets env ;;
  accessToken <- Jwt.signAsync payload minutes_15 (access_secret e) ;;
  refreshToken <- Jwt.signAsync payload days_7 (refresh_secret e) ;;
  ret (Tokens.mk accessToken refreshToken).

Definition updateRefreshToken (userId : Id) (refreshToken : string) : M unit :=
  hashedRefreshToken <- bcrypt.hash refreshToken 10 ;;
  Prisma.user_update_refreshToken userId (Some hashedRefreshToken) ;;
  ret tt.

Definition register (registerDto : RegisterDto.t) : M AuthResult.t :=
  try_catch
    ((* Check if user already exists *)
     existingUser <- Prisma.user_findUnique_email (RegisterDto.email registerDto) ;;
     match existingUser with
     | Some _ => throw (ConflictException "Email already exists")
     | None =>
         hashedPassword <- bcrypt.hash (RegisterDto.password registerDto) 10 ;;
         user <- Prisma.user_create (RegisterDto.email registerDto) hashedPassword
                   (RegisterDto.name registerDto) ;;
         tokens <- generateTokens (User.id user) (User.email user) ;;
         updateRefreshToken (User.id user) (Tokens.refreshToken tokens) ;;
         (* Send welcome email (async, don't wait) *)
         detach (MailService.sendWelcomeEmail mailService (User.email user) (User.name user)) ;;
         ret (AuthResult.mk (author_of user)
                (Tokens.accessToken tokens) (Tokens.refreshToken tokens))
     end)
    (fun error => PrismaErrorHandler.handlePrismaError error).

Definition login (loginDto : LoginDto.t) : M AuthResult.t :=
  user <- Prisma.user_findUnique_email (LoginDto.email loginDto) ;;
  match user with
  | None => throw (UnauthorizedException "Invalid credentials")
  | Some user =>
      passwordValid <- bcrypt.compare (LoginDto.password loginDto) (User.password user) ;;
      if negb passwordValid then throw (UnauthorizedException "Invalid credentials")
      else
        tokens <- generateTokens (User.id user) (User.email user) ;;
        updateRefreshToken (User.id user) (Tokens.refreshToken tokens) ;;
        ret (AuthResult.mk (author_of user)
               (Tokens.accessToken tokens) (Tokens.refreshToken tokens))
  end.

Definition refreshToken (refreshToken : string) : M Tokens.t :=
  try_catch
    (e <- gets env ;;
     claims <- Jwt.verify refreshToken (JWT_REFRESH_SECRET e) ;;
     user <- Prisma.user_findUnique_id (sub (payload claims)) ;;
     match user with
     | None => throw (UnauthorizedException "Access denied")
     | Some user =>
         match or_else (User.refreshToken user) None with
         | None => throw (UnauthorizedException "Access denied")
         | Some stored =>
             refreshTokenMatches <- bcrypt.compare refreshToken stored ;;
             if negb refreshTokenMatches
             then throw (UnauthorizedException "Invalid refresh token")
             else
               tokens <- generateTokens (User.id user) (User.email user) ;;
               updateRefreshToken (User.id user) (Tokens.refreshToken tokens) ;;
               ret tokens
         end
     end)
    (fun _ => throw (UnauthorizedException "Invalid or expired refresh token")).

Definition refreshTokens (userId : Id) (refreshToken : string) : M Tokens.t :=
  user <- Prisma.user_findUnique_id userId ;;
  match user with
  | None => throw (UnauthorizedException "Access denied")
  | Some user =>
      match or_else (User.refreshToken user) None with
      | None => throw (UnauthorizedException "Access denied")
      | Some stored =>
          refreshTokenMatches <- bcrypt.compare refreshToken stored ;;
          if negb refreshTokenMatches
          then throw (UnauthorizedException "Access denied")
          else
            tokens <- generateTokens (User.id user) (User.email user) ;;
            updateRefreshToken (User.id user) (Tokens.refreshToken tokens) ;;
            ret tokens
      end
  end.

Definition logout (userId : Id) : M Message.t :=
  Prisma.user_update_refreshToken userId None ;;
  ret (Message.mk "Logged out successfully").

End Service.
End AuthService.

(** ** jwt.strategy.ts *)

Module AuthUser.
Record t : Type := mk {
  userId : Id;
  email : string;
  name : string
}.
End AuthUser.

Module JwtStrategy.
Section Strategy.
Context {J : JwtService}.

Definition validate (p : JwtPayload) : M AuthUser.t :=
  user <- Prisma.user_findUnique_id (sub p) ;;
  match user with
  | None => throw (UnauthorizedException "User not found")
  | Some user => ret (AuthUser.mk (User.id user) (User.email user) (User.name user))
  end.

(** The passport strategy as its constructor configures it
    ([fromAuthHeaderAsBearerToken], [ignoreExpiration: false], [secretOrKey]),
    behind the guard of the protected routes: the bearer token is checked
    under the access secret, then [validate] runs on its payload; a missing
    or refused token is answered 401 by the guard. *)
Definition authenticate (bearer : option string) : M AuthUser.t :=
  match bearer with
  | None => throw (UnauthorizedException "Unauthorized")
  | Some token =>
      e <- gets env ;;
      now <- gets clock ;;
      match Jwt.check token (AuthService.access_secret e) now with
      | None => throw (UnauthorizedException "Unauthorized")
      | Some claims => validate (payload claims)
      end
  end.

End Strategy.
End JwtStrategy.

(** ** posts.service.ts *)

Module CreatePostDto.
Record t : Type := mk {
  title : string;
  content : string;
  published : option bool;
  fileUrl : option string
}.
End CreatePostDto.

Module UpdatePostDto.
Record t : Type := mk {
  title : option string;
  content : option string;
  published : option bool
}.
End UpdatePostDto.

(** A JavaScript number that came out of a division of integers. *)
Inductive JsNumber : Type :=
| Finite (z : Z)
| Infinity
| NaN.

(** [Math.ceil(total / limit)] *)
Definition ceil_div (total : nat) (limit : Z) : JsNumber :=
  if (limit =? 0)%Z then
    match total with
    | O => NaN
    | S _ => Infinity
    end
  else Finite (- ((- Z.of_nat total) / limit))%Z.

Module Page.
Record t : Type := mk {
  posts : list Prisma.PostListItem;
  total : nat;
  page : Z;
  limit : Z;
  totalPages : JsNumber
}.
End Page.

Module PostsService.
Section Service.
Context {DS : Datasource}.
Variable mailService : MailService.t.

Definition create (userId : Id) (createPostDto : CreatePostDto.t) : M (Post.t * Author.t) :=
  try_catch
    (post <- Prisma.post_create
               (CreatePostDto.title createPostDto) (CreatePostDto.content createPostDto)
               (CreatePostDto.published createPostDto) (CreatePostDto.fileUrl createPostDto)
               userId ;;
     (* Send email notification (async, don't wait) *)
     detach (MailService.sendPostCreatedEmail mailService
               (Author.email (snd post)) (Author.name (snd post))
               (Post.title (fst post)) (Post.id (fst post))) ;;
     ret post)
    (fun error => PrismaErrorHandler.handlePrismaError error).

(** [search ? { OR: [title contains, content contains] } : {}] *)
Definition where_search (search : option string) : Post.t -> bool :=
  match search with
  | Some s =>
      if String.eqb s EmptyString then fun _ => true
      else fun p => contains (Post.title p) s || contains (Post.content p) s
  | None => fun _ => true
  end.

Definition findAll (page limit : Z) (search : option string) : M Page.t :=
  try_catch
    (let skip := ((page - 1) * limit)%Z in
     let where_ := where_search search in
     posts <- Prisma.post_findMany where_ skip limit ;;
     total <- Prisma.post_count where_ ;;
     ret (Page.mk posts total page limit (ceil_div total limit)))
    (fun error =>
       logger_error ("Error in findAll: " ++ message_of error) ;;
       PrismaErrorHandler.handlePrismaError error).

Definition findOne (id : Id) : M Prisma.PostDetail :=
  post <- Prisma.post_findUnique_detail id ;;
  match post with
  | None => throw (NotFoundException "Post not found")
  | Some post => ret post
  end.

Definition update (id userId : Id) (updatePostDto : UpdatePostDto.t)
  : M (Post.t * option Author.t) :=
  try_catch
    ((* Check if post exists and user owns it *)
     post <- Prisma.post_findUnique id ;;
     match post with
     | None => throw (NotFoundException "Post not found")
     | Some post =>
         if negb (Nat.eqb (Post.authorId post) userId)
         then throw (ForbiddenException "You can only update your own posts")
         else
           updatedPost <- Prisma.post_update id
                            (UpdatePostDto.title updatePostDto)
                            (UpdatePostDto.content updatePostDto)
                            (UpdatePostDto.published updatePostDto) ;;
           ret updatedPost
     end)
    (fun error => PrismaErrorHandler.handlePrismaError error).

Definition remove (id userId : Id) : M Message.t :=
  try_catch
    (post <- Prisma.post_findUnique id ;;
     match post with
     | None => throw (NotFoundException "Post not found")
     | Some post =>
         if negb (Nat.eqb (Post.authorId post) userId)
         then throw (ForbiddenException "You can only delete your own posts")
         else
           Prisma.post_delete id ;;
           ret (Message.mk "Post deleted successfully")
     end)
    (fun error => PrismaErrorHandler.handlePrismaError error).

Definition createReply (postId : Id) (content : string) (userId : Id)
  : M (Reply.t * Author.t) :=
  try_catch
    (post <- Prisma.post_findUnique postId ;;
     match post with
     | None => throw (NotFoundException "Post not found")
     | Some _ => Prisma.reply_create content postId userId
     end)
    (fun error => PrismaErrorHandler.handlePrismaError error).

Definition deleteReply (replyId userId : Id) : M Message.t :=
  try_catch
    ((* Find the reply *)
     reply <- Prisma.reply_findUnique replyId ;;
     match reply with
     | None => throw (NotFoundException "Reply not found")
     | Some reply =>
         (* Check if user is the author of the reply *)
         if negb (Nat.eqb (Reply.authorId reply) userId)
         then throw (ForbiddenException "You can only delete your own replies")
         else
           Prisma.reply_delete replyId ;;
           ret (Message.mk "Reply deleted successfully")
     end)
    (fun error => PrismaErrorHandler.handlePrismaError error).

End Service.
End PostsService.

(** ** posts.controller.ts *)

Module PostsController.
Section Controller.
Context {DS : Datasource}.

Variable mailService : MailService.t.

(** [file ? `/uploads/${file.filename}` : undefined] *)
Definition upload_url (file : option string) : option string :=
  match file with
  | Some filename => Some ("/uploads/" ++ filename)%string
  | None => None
  end.

(** [@Post()]: [file] is the name the upload was stored under, if the
    request carried one; [{ ...createPostDto, fileUrl }]. *)
Definition create (req_user : AuthUser.t) (createPostDto : CreatePostDto.t)
  (file : option string) : M (Post.t * Author.t) :=
  let fileUrl := upload_url file in
  PostsService.create mailService (AuthUser.userId req_user)
    (CreatePostDto.mk (CreatePostDto.title createPostDto)
       (CreatePostDto.content createPostDto) (CreatePostDto.published createPostDto)
       fileUrl).

(** [@Get(':id')] *)
Definition findOne (id : Id) : M Prisma.PostDetail :=
  PostsService.findOne id.

(** [@Patch(':id')] *)
Definition update (id : Id) (req_user : AuthUser.t) (updatePostDto : UpdatePostDto.t)
  : M (Post.t * option Author.t) :=
  PostsService.update id (AuthUser.userId req_user) updatePostDto.

(** [@Delete(':id')] *)
Definition remove (id : Id) (req_user : AuthUser.t) : M Message.t :=
  PostsService.remove id (AuthUser.userId req_user).

(** [@Post(':id/reply')] *)
Definition createReply (id : Id) (content : string) (req_user : AuthUser.t)
  : M (Reply.t * Author.t) :=
  PostsService.createReply id content (AuthUser.userId req_user).

(** [@Delete(':postId/reply/:replyId')], behind the guard that put
    [req.user] in place. *)
Definition deleteReply (postId replyId : Id) (req_user : AuthUser.t) : M Message.t :=
  PostsService.deleteReply replyId (AuthUser.userId req_user).

End Controller.
End PostsController.

(** ** A transparent implementation of the library interfaces

    Used to run the services on concrete examples. A token has the shape of
    a JWT: the base64url text of the header, of the JSON payload (the fields
    in the order [jsonwebtoken] writes them: [sub], [email], [iat], [exp])
    and of a signature, joined by dots; the signature is kept as the key
    itself. A hash is its parameters followed by the data it read. Like
    bcrypt, [hash] and [compare] read the first 72 bytes of their input and
    nothing after them. *)

Module Reference.

Fixpoint strip_prefix (p s : string) : option string :=
  match p, s with
  | EmptyString, _ => Some s
  | String a p', String b s' => if Ascii.eqb a b then strip_prefix p' s' else None
  | String _ _, EmptyString => None
  end.

Fixpoint split_at (c : ascii) (s : string) : option (string * string) :=
  match s with
  | EmptyString => None
  | String a s' =>
      if Ascii.eqb a c then Some (EmptyString, s')
      else match split_at c s' with
           | Some (x, y) => Some (String a x, y)
           | None => None
           end
  end.

Definition show_nat (n : nat) : string := NilZero.string_of_uint (Nat.to_uint n).
Definition read_nat (s : string) : option nat :=
  option_map Nat.of_uint (NilZero.uint_of_string s).
Definition show_N (n : N) : string := NilZero.string_of_uint (N.to_uint n).
Definition read_N (s : string) : option N :=
  option_map N.of_uint (NilZero.uint_of_string s).

Definition dot : ascii := ascii_of_nat 46.
Definition dollar : ascii := ascii_of_nat 36.
Definition comma : ascii := ascii_of_nat 44.
Definition quote : ascii := ascii_of_nat 34.
Definition closing : ascii := ascii_of_nat 125.
Definition sep (c : ascii) : string := String c EmptyString.

(** *** base64url, unpadded *)

Definition alphabet : string :=
  "ABCDEFGHIJKLMNOPQRSTUVWXYZabcdefghijklmnopqrstuvwxyz0123456789-_".

Definition b64_char (n : nat) : ascii :=
  match get n alphabet with
  | Some c => c
  | None => zero
  end.

Definition b64_index (c : ascii) : option nat := index 0 (sep c) alphabet.

Fixpoint b64_encode (s : string) : string :=
  match s with
  | EmptyString => EmptyString
  | String a EmptyString =>
      let x := nat_of_ascii a in
      String (b64_char (x / 4)) (String (b64_char (x mod 4 * 16)) EmptyString)
  | String a (String b EmptyString) =>
      let x := nat_of_ascii a in
      let y := nat_of_ascii b in
      String (b64_char (x / 4))
        (String (b64_char (x mod 4 * 16 + y / 16))
           (String (b64_char (y mod 16 * 4)) EmptyString))
  | String a (String b (String c rest)) =>
      let x := nat_of_ascii a in
      let y := nat_of_ascii b in
      let z := nat_of_ascii c in
      String (b64_char (x / 4))
        (String (b64_char (x mod 4 * 16 + y / 16))
           (String (b64_char (y mod 16 * 4 + z / 64))
              (String (b64_char (z mod 64)) (b64_encode rest))))
  end.

Fixpoint b64_decode (s : string) : option string :=
  match s with
  | EmptyString => Some EmptyString
  | String _ EmptyString => None
  | String a (String b EmptyString) =>
      match b64_index a, b64_index b with
      | Some i, Some j => Some (sep (ascii_of_nat (i * 4 + j / 16)))
      | _, _ => None
      end
  | String a (String b (String c EmptyString)) =>
      match b64_index a, b64_index b, b64_index c with
      | Some i, Some j, Some k =>
          Some (String (ascii_of_nat (i * 4 + j / 16))
                  (sep (ascii_of_nat (j mod 16 * 16 + k / 4))))
      | _, _, _ => None
      end
  | String a (String b (String c (String d rest))) =>
      match b64_index a, b64_index b, b64_index c, b64_index d, b64_decode rest with
      | Some i, Some j, Some k, Some l, Some r =>
          Some (String (ascii_of_nat (i * 4 + j / 16))
                  (String (ascii_of_nat (j mod 16 * 16 + k / 4))
                     (String (ascii_of_nat (k mod 4 * 64 + l)) r)))
      | _, _, _, _, _ => None
      end
  end.

(** *** Tokens *)

Definition field (name : string) : string := sep quote ++ name ++ sep quote ++ ":".

(** [{"alg":"HS256","typ":"JWT"}] *)
Definition header : string :=
  "{" ++ field "alg" ++ sep quote ++ "HS256" ++ sep quote ++ sep comma
      ++ field "typ" ++ sep quote ++ "JWT" ++ sep quote ++ "}".

(** [{"sub":"1","email":"a@x.com","iat":1000,"exp":1900}] *)
Definition json_of_claims (c : JwtClaims) : string :=
  "{" ++ field "sub" ++ sep quote ++ show_nat (sub (payload c)) ++ sep quote ++ sep comma
      ++ field "email" ++ sep quote ++ email (payload c) ++ sep quote ++ sep comma
      ++ field "iat" ++ show_N (iat c) ++ sep comma
      ++ field "exp" ++ show_N (exp c) ++ "}".

Definition claims_of_json (s : string) : option JwtClaims :=
  match strip_prefix ("{" ++ field "sub" ++ sep quote) s with
  | None => None
  | Some r1 =>
  match split_at quote r1 with
  | None => None
  | Some (s1, r2) =>
  match strip_prefix (sep comma ++ field "email" ++ sep quote) r2 with
  | None => None
  | Some r3 =>
  match split_at quote r3 with
  | None => None
  | Some (mail, r4) =>
  match strip_prefix (sep comma ++ field "iat") r4 with
  | None => None
  | Some r5 =>
  match split_at comma r5 with
  | None => None
  | Some (s2, r6) =>
  match strip_prefix (field "exp") r6 with
  | None => None
  | Some r7 =>
  match split_at closing r7 with
  | None => None
  | Some (s3, _) =>
      match read_nat s1, read_N s2, read_N s3 with
      | Some sb, Some i, Some x => Some (mkClaims (mkPayload sb mail) i x)
      | _, _, _ => None
      end
  end end end end end end end end.

Definition encode (c : JwtClaims) (key : string) : string :=
  b64_encode header ++ sep dot ++ b64_encode (json_of_claims c) ++ sep dot
    ++ b64_encode key.

Definition decode (token key : string) : option JwtClaims :=
  match split_at dot token with
  | None => None
  | Some (h, rest) =>
      match split_at dot rest with
      | None => None
      | Some (body, signature) =>
          if String.eqb h (b64_encode header) && String.eqb signature (b64_encode key)
          then match b64_decode body with
               | Some json => claims_of_json json
               | None => None
               end
          else None
      end
  end.

(** *** Hashes *)

(** The bytes of [data] that bcrypt reads. *)
Definition read_by_bcrypt (data : string) : string := substring 0 72 data.

Definition hash (data : string) (rounds salt : nat) : string :=
  show_nat rounds ++ sep dollar ++ show_nat salt ++ sep dollar ++ read_by_bcrypt data.

Definition compare (data encrypted : string) : bool :=
  match split_at dollar encrypted with
  | None => false
  | Some (_, rest) =>
      match split_at dollar rest with
      | None => false
      | Some (_, plain) => String.eqb (read_by_bcrypt data) plain
      end
  end.

Definition substring_of (s part : string) : bool :=
  match index 0 part s with
  | Some _ => true
  | None => false
  end.

#[export] Instance jwt : JwtService :=
  {| jwt_encode := encode; jwt_decode := decode; module_secret := Some "module-secret" |}.

#[export] Instance bcrypt_impl : Bcrypt :=
  {| bcrypt_hash := hash; bcrypt_compare := compare |}.

#[export] Instance datasource : Datasource :=
  {| published_default := false; cascade_replies := true; stamps_updatedAt := true;
     contains := substring_of |}.

(** A working channel, a failing channel, and a service that never got
    its transporter. *)
Definition mail_ok : MailService.t :=
  MailService.mk (Some (fun o =>
    Return (MailService.mkInfo "<1@ethereal.email>" "https://ethereal.email/message/1"))).
Definition mail_down : MailService.t :=
  MailService.mk (Some (fun o => Throw (Error "connect ECONNREFUSED"))).
Definition mail_uninitialised : MailService.t := MailService.mk None.

Definition env0 : ProcessEnv := mkEnv (Some "s3cret") (Some "r3fresh").

(** An empty store at second 1000. *)
Definition empty_world : World := mkWorld [] [] [] 1 1000%N 0 env0 [].

End Reference.

(** ** Vocabulary of the properties *)

Section Vocabulary.
Context {J : JwtService} {B : Bcrypt} {DS : Datasource}.

(** The user record with a given id or email, if the store holds one. *)
Definition stored_user (id : Id) (w : World) : option User.t :=
  find (Prisma.user_has_id id) (users w).
Definition stored_email (email : string) (w : World) : option User.t :=
  find (Prisma.user_has_email email) (users w).
Definition stored_post (id : Id) (w : World) : option Post.t :=
  find (Prisma.post_has_id id) (posts w).
Definition stored_reply (id : Id) (w : World) : option Reply.t :=
  find (Prisma.reply_has_id id) (replies w).

(** [t] carries claims [c] under a valid refresh signature and has not
    expired in [w]. *)
Definition valid_refresh_token (t : string) (w : World) (c : JwtClaims) : Prop :=
  exists key,
    or_else (JWT_REFRESH_SECRET (env w)) module_secret = Some key /\
    Jwt.check t key (clock w) = Some c.

(** [t] carries claims [c] under a valid access signature and has not
    expired in [w]. *)
Definition valid_access_token (t : string) (w : World) (c : JwtClaims) : Prop :=
  Jwt.check t (AuthService.access_secret (env w)) (clock w) = Some c.

(** The refresh-token hash a user record holds, as [refreshToken] reads it:
    [null] and the empty string both count as none. *)
Definition session_hash (u : User.t) : option string :=
  or_else (User.refreshToken u) None.

(** The token pair the issuer mints for a user in [w]. *)
Definition issued (userId : Id) (mail : string) (w : World) : Tokens.t :=
  Tokens.mk
    (jwt_encode (mkClaims (mkPayload userId mail) (clock w) (clock w + AuthService.minutes_15)%N)
       (AuthService.access_secret (env w)))
    (jwt_encode (mkClaims (mkPayload userId mail) (clock w) (clock w + AuthService.days_7)%N)
       (AuthService.refresh_secret (env w))).

(** The hash [updateRefreshToken] stores for a token in [w]. *)
Definition stored_hash_of (token : string) (w : World) : string :=
  bcrypt_hash token 10 (entropy w).

(** The row update behind [updateRefreshToken] and [logout]. *)
Definition rewrite_token (id : Id) (rt : option string) (now : N) (x : User.t) : User.t :=
  if Prisma.user_has_id id x then Prisma.with_refreshToken rt now x else x.

(** The world a successful refresh for user [u] leaves behind [w]. *)
Definition rotated (u : User.t) (w : World) : World :=
  set_users
    (map (rewrite_token (User.id u)
            (Some (stored_hash_of
                     (Tokens.refreshToken (issued (User.id u) (User.email u) w)) w))
            (clock w))
         (users w))
    (set_entropy (S (entropy w)) w).

(** The lines the mail service logs when a delivery fails with [e]. *)
Definition welcome_failure (to : string) (e : Exception) : LogLine :=
  mkLog ERROR ("Failed to send welcome email to " ++ to ++ ": " ++ message_of e).
Definition post_created_failure (to : string) (e : Exception) : LogLine :=
  mkLog ERROR ("Failed to send post created email to " ++ to ++ ": " ++ message_of e).

(** The two worlds hold the same database and differ at most in their logs. *)
Definition same_but_logs (w1 w2 : World) : Prop :=
  set_logs [] w1 = set_logs [] w2.

(** The record [db.user.create] inserts in [w]. *)
Definition created_user (mail password name : string) (w : World) : User.t :=
  User.mk (next_id w) mail name password None (clock w) (clock w).

(** The world a successful registration leaves, up to the log. *)
Definition registered (dto : RegisterDto.t) (w : World) : World :=
  let hashed := bcrypt_hash (RegisterDto.password dto) 10 (entropy w) in
  let w_a := set_entropy (S (entropy w)) w in
  let user := created_user (RegisterDto.email dto) hashed (RegisterDto.name dto) w_a in
  let w_b := set_users (users w ++ [user]) (set_next_id (S (next_id w)) w_a) in
  let tokens := issued (User.id user) (User.email user) w_b in
  set_users
    (map (rewrite_token (User.id user)
            (Some (stored_hash_of (Tokens.refreshToken tokens) w_b)) (clock w_b))
         (users w_b))
    (set_entropy (S (entropy w_b)) w_b).

(** The record [db.post.create] inserts in [w]. *)
Definition created_post (userId : Id) (dto : CreatePostDto.t) (w : World) : Post.t :=
  Post.mk (next_id w) (CreatePostDto.title dto) (CreatePostDto.content dto)
    (match CreatePostDto.published dto with Some b => b | None => published_default end)
    userId (CreatePostDto.fileUrl dto) (clock w) (clock w).

(** The world a successful post creation leaves, up to the log. *)
Definition with_post (userId : Id) (dto : CreatePostDto.t) (w : World) : World :=
  set_posts (posts w ++ [created_post userId dto w]) (set_next_id (S (next_id w)) w).

(** The row update behind [db.post.update]. *)
Definition rewrite_post (id : Id) (dto : UpdatePostDto.t) (now : N) (x : Post.t) : Post.t :=
  if Prisma.post_has_id id x
  then Prisma.with_fields (UpdatePostDto.title dto) (UpdatePostDto.content dto)
         (UpdatePostDto.published dto) now x
  else x.

(** The post [p] after the fields of [dto] were applied at time [now]. *)
Definition updated (dto : UpdatePostDto.t) (now : N) (p : Post.t) : Post.t :=
  Prisma.with_fields (UpdatePostDto.title dto) (UpdatePostDto.content dto)
    (UpdatePostDto.published dto) now p.

(** [a] may come before [b] in a newest-first listing. *)
Definition newer_first (a b : Post.t) : Prop :=
  (Post.createdAt b <= Post.createdAt a)%N.

(** What identifies and authenticates a user, apart from the session. *)
Definition credentials (u : User.t) : Id * string * string * string * N :=
  (User.id u, User.email u, User.name u, User.password u, User.createdAt u).

(** [w'] holds the users of [w] with the same credentials, in the same
    order, and the same posts and replies. *)
Definition same_accounts (w w' : World) : Prop :=
  map credentials (users w') = map credentials (users w) /\
  posts w' = posts w /\
  replies w' = replies w.

(** [y] is the row [x] once the session of user [id] was renewed at [now]
    with the hash [h]: the row of that user holds [h], carries the store's
    stamp and is otherwise as it was; any other row has not changed at all,
    its own refresh-token hash included. *)
Definition session_row (id : Id) (h : string) (now : N) (x y : User.t) : Prop :=
  if Nat.eqb (User.id x) id
  then User.refreshToken y = Some h /\
       User.updatedAt y = Prisma.stamp now (User.updatedAt x) /\
       credentials y = credentials x
  else y = x.

(** Whatever the world and the outcome, [m] leaves the accounts as they were. *)
Definition keeps_accounts {A} (m : M A) : Prop :=
  forall w, same_accounts w (snd (m w)).

(** What [update] must not change of a post. *)
Definition ownership (p : Post.t) : Id * Id * N * option string :=
  (Post.id p, Post.authorId p, Post.createdAt p, Post.fileUrl p).

(** The record [db.reply.create] inserts in [w]. *)
Definition created_reply (content : string) (postId userId : Id) (w : World) : Reply.t :=
  Reply.mk (next_id w) content postId userId (clock w).

(** [a] may come before [b] in an oldest-first listing. *)
Definition older_first (a b : Reply.t) : Prop :=
  (Reply.createdAt a <= Reply.createdAt b)%N.

(** The line the mail service logs when a reply notification fails with [e]. *)
Definition reply_notification_failure (to : string) (e : Exception) : LogLine :=
  mkLog ERROR ("Failed to send reply notification to " ++ to ++ ": " ++ message_of e).

(** The exception is one of the store's own: a known request error of the
    generated client. *)
Definition is_store_error (e : Exception) : bool :=
  match e with
  | ClientKnownRequestError _ _ => true
  | _ => false
  end.

(** The outcome lets an error of the store through untranslated. *)
Definition leaks_store_error {A} (o : Outcome A) : bool :=
  match o with
  | Throw e => is_store_error e
  | Return _ => false
  end.

(** The post matches the search text, as [findAll] asks the store. *)
Definition matches (search : string) (p : Post.t) : bool :=
  contains (Post.title p) search || contains (Post.content p) search.

End Vocabulary.

Definition refresh_refused : Exception :=
  UnauthorizedException "Invalid or expired refresh token".
Definition invalid_credentials : Exception :=
  UnauthorizedException "Invalid credentials".
Definition access_denied : Exception :=
  UnauthorizedException "Access denied".

(** ** Concrete worlds, for running the services *)

Module Scenario.
Import Reference.

Definition alice_dto : RegisterDto.t := RegisterDto.mk "a@x.com" "pw123456" "A".

(** The tokens issued to user 1 at second [t]. *)
Definition alice_access_at (t : N) : string :=
  encode (mkClaims (mkPayload 1 "a@x.com") t (t + 900)%N) "s3cret".
Definition alice_refresh_at (t : N) : string :=
  encode (mkClaims (mkPayload 1 "a@x.com") t (t + 604800)%N) "r3fresh".

(** The tokens issued to user 1 at second 1000. *)
Definition alice_access : string := Eval vm_compute in alice_access_at 1000.
Definition alice_refresh : string := Eval vm_compute in alice_refresh_at 1000.
Definition alice_claims : JwtClaims := mkClaims (mkPayload 1 "a@x.com") 1000%N 605800%N.

Definition alice : User.t :=
  User.mk 1 "a@x.com" "A" (hash "pw123456" 10 0) (Some (hash alice_refresh 10 1)) 1000%N 1000%N.

(** The world right after [alice_dto] registered in the empty store. *)
Definition alice_world : World := mkWorld [alice] [] [] 2 1000%N 2 env0 [].


Definition bob : User.t :=
  User.mk 2 "b@x.com" "B" (hash "hunter22" 10 2) None 1500%N 1500%N.

Definition post3 : Post.t := Post.mk 3 "T" "C" true 1 None 1600%N 1600%N.
Definition post5 : Post.t := Post.mk 5 "Later" "C2" true 2 None 1800%N 1800%N.
Definition post6 : Post.t := Post.mk 6 "Between" "C3" false 1 None 1700%N 1700%N.

(** Bob's reply to Alice's post. *)
Definition reply4 : Reply.t := Reply.mk 4 "R" 3 2 1650%N.

(** Two users, three posts, one reply, at second 2000. *)
Definition forum_world : World :=
  mkWorld [alice; bob] [post3; post5; post6] [reply4] 7 2000%N 3 env0 [].

Definition retitle : UpdatePostDto.t := UpdatePostDto.mk (Some "T2") None None.
Definition first_post : CreatePostDto.t := CreatePostDto.mk "T" "C" (Some true) None.

(** A deployment that sets no refresh secret. *)
Definition env_unset : ProcessEnv := mkEnv (Some "s3cret") None.
Definition unset_world : World := mkWorld [alice] [] [] 2 1000%N 2 env_unset [].

(** Alice's reply to her own post, later than Bob's. *)
Definition reply7 : Reply.t := Reply.mk 7 "R2" 3 1 1900%N.

(** The forum with a second reply on post 3, listed out of order. *)
Definition thread_world : World :=
  mkWorld [alice; bob] [post3; post5; post6] [reply7; reply4] 8 2000%N 3 env0 [].

End Scenario.

(** * Properties *)

(** ** Lists of records *)

Lemma find_map_same {A} (p : A -> bool) (g : A -> A) (l : list A) :
  (forall x, p (g x) = p x) ->
  find p (map g l) = option_map g (find p l).
Proof.
  intros Hp. induction l as [|a l IH]; simpl; [reflexivity|].
  rewrite Hp. destruct (p a); [reflexivity | exact IH].
Qed.

Lemma find_app_last {A} (p : A -> bool) (l : list A) (x : A) :
  find p (l ++ [x]) =
  match find p l with
  | Some y => Some y
  | None => if p x then Some x else None
  end.
Proof.
  induction l as [|a l IH]; simpl; [reflexivity|].
  destruct (p a); [reflexivity | exact IH].
Qed.

Lemma find_filter_negb {A} (p : A -> bool) (l : list A) :
  find p (filter (fun x => negb (p x)) l) = None.
Proof.
  induction l as [|a l IH]; simpl; [reflexivity|].
  destruct (p a) eqn:E; simpl; [exact IH | rewrite E; exact IH].
Qed.

Lemma find_some_holds {A} (p : A -> bool) (l : list A) (x : A) :
  find p l = Some x -> p x = true.
Proof. intros H. apply find_some in H. tauto. Qed.

(** ** The token issuer and the credential store *)

Section Auth.
Context {J : JwtService} {B : Bcrypt} {DS : Datasource}.

Lemma generateTokens_run (userId : Id) (mail : string) (w : World) :
  AuthService.generateTokens userId mail w = (Return (issued userId mail w), w).
Proof. reflexivity. Qed.

Lemma rewrite_token_id id rt now i x :
  Prisma.user_has_id i (rewrite_token id rt now x) = Prisma.user_has_id i x.
Proof. unfold rewrite_token. destruct (Prisma.user_has_id id x); reflexivity. Qed.

Lemma rewrite_token_email id rt now e x :
  Prisma.user_has_email e (rewrite_token id rt now x) = Prisma.user_has_email e x.
Proof. unfold rewrite_token. destruct (Prisma.user_has_id id x); reflexivity. Qed.

Lemma user_update_run (id : Id) (rt : option string) (w : World) (u : User.t) :
  stored_user id w = Some u ->
  Prisma.user_update_refreshToken id rt w =
  (Return (Prisma.with_refreshToken rt (clock w) u),
   set_users (map (rewrite_token id rt (clock w)) (users w)) w).
Proof.
  intros H. unfold Prisma.user_update_refreshToken, Prisma.user_findUnique_id, bind, gets.
  unfold stored_user in H. rewrite H. reflexivity.
Qed.

Lemma user_update_missing (id : Id) (rt : option string) (w : World) :
  stored_user id w = None ->
  Prisma.user_update_refreshToken id rt w = (Throw Prisma.P2025, w).
Proof.
  intros H. unfold Prisma.user_update_refreshToken, Prisma.user_findUnique_id, bind, gets.
  unfold stored_user in H. rewrite H. reflexivity.
Qed.

Lemma stored_user_after_update (id : Id) (rt : option string) (now : N) (w : World) (u : User.t) :
  stored_user id w = Some u ->
  stored_user id (set_users (map (rewrite_token id rt now) (users w)) w) =
  Some (Prisma.with_refreshToken rt now u).
Proof.
  intros H. unfold stored_user in *. simpl.
  rewrite find_map_same by (intro; apply rewrite_token_id).
  rewrite H. simpl. unfold rewrite_token.
  rewrite (find_some_holds _ _ _ H). reflexivity.
Qed.

Lemma updateRefreshToken_run (id : Id) (token : string) (w : World) (u : User.t) :
  stored_user id w = Some u ->
  AuthService.updateRefreshToken id token w =
  (Return tt,
   set_users (map (rewrite_token id (Some (stored_hash_of token w)) (clock w)) (users w))
     (set_entropy (S (entropy w)) w)).
Proof.
  intros H. unfold AuthService.updateRefreshToken, bind, bcrypt.hash.
  rewrite (user_update_run id _ (set_entropy (S (entropy w)) w) u) by exact H.
  reflexivity.
Qed.

End Auth.

(** ** Refresh rotation *)

Section Rotation.
Context {J : JwtService} {B : Bcrypt} {DS : Datasource}.

Lemma verify_run (t : string) (w : World) (c : JwtClaims) :
  valid_refresh_token t w c ->
  Jwt.verify t (JWT_REFRESH_SECRET (env w)) w = (Return c, w).
Proof.
  intros [key [Hkey Hc]]. unfold Jwt.verify. rewrite Hkey.
  unfold bind, gets. rewrite Hc. reflexivity.
Qed.

(** A refresh can only fail with the one generic refusal, and a refusal
    leaves the world as the last write left it. *)
Lemma refresh_fails_generic (t : string) (w : World) (e : Exception) (w' : World) :
  AuthService.refreshToken t w = (Throw e, w') -> e = refresh_refused.
Proof.
  unfold AuthService.refreshToken, try_catch.
  match goal with |- context [match ?m w with _ => _ end] => destruct (m w) as [[a|e0] w0] end;
    unfold throw; intros H; inversion H; reflexivity.
Qed.

(** A verified token whose subject holds no hash, or a hash the token does
    not match, is refused. *)
Lemma refresh_refused_when (t : string) (w : World) (u : User.t) :
  (forall c, valid_refresh_token t w c -> stored_user (sub (payload c)) w = Some u) ->
  (forall h, session_hash u = Some h -> bcrypt_compare t h = false) ->
  AuthService.refreshToken t w = (Throw refresh_refused, w).
Proof.
  intros Hu Hcmp.
  unfold AuthService.refreshToken, try_catch, bind at 1 2, gets at 1.
  unfold Jwt.verify.
  destruct (or_else (JWT_REFRESH_SECRET (env w)) module_secret) as [key|] eqn:Hkey;
    [|reflexivity].
  unfold bind at 1, gets at 1.
  destruct (Jwt.check t key (clock w)) as [c|] eqn:Hc; [|reflexivity].
  assert (Hv : valid_refresh_token t w c) by (exists key; split; assumption).
  specialize (Hu c Hv). unfold stored_user in Hu.
  unfold ret at 1, bind at 1, Prisma.user_findUnique_id, gets.
  rewrite Hu. unfold session_hash in Hcmp.
  destruct (or_else (User.refreshToken u) None) as [h|]; [|reflexivity].
  unfold bind at 1, bcrypt.compare, ret at 1. rewrite (Hcmp h eq_refl). reflexivity.
Qed.

(** A refresh that is accepted: the pair it returns and the world it leaves. *)
Lemma refresh_accepts (t : string) (w : World) (c : JwtClaims) (u : User.t) (h : string) :
  valid_refresh_token t w c ->
  stored_user (sub (payload c)) w = Some u ->
  session_hash u = Some h ->
  bcrypt_compare t h = true ->
  AuthService.refreshToken t w = (Return (issued (User.id u) (User.email u) w), rotated u w).
Proof.
  intros Hv Hu Hh Hcmp.
  assert (Hu' : stored_user (User.id u) w = Some u).
  { pose proof (find_some_holds _ _ _ Hu) as Hid. apply Nat.eqb_eq in Hid.
    rewrite Hid. exact Hu. }
  unfold AuthService.refreshToken, try_catch, bind at 1 2, gets at 1.
  rewrite (verify_run t w c Hv).
  unfold bind at 1, Prisma.user_findUnique_id, gets. unfold stored_user in Hu.
  unfold session_hash in Hh.
  rewrite Hu, Hh. unfold bind at 1, bcrypt.compare, ret at 1. rewrite Hcmp. cbn [negb].
  unfold bind at 1. rewrite generateTokens_run.
  unfold bind at 1.
  rewrite (updateRefreshToken_run (User.id u) _ w u Hu'). reflexivity.
Qed.

Lemma stored_user_rotated (u : User.t) (w : World) :
  stored_user (User.id u) w = Some u ->
  stored_user (User.id u) (rotated u w) =
  Some (Prisma.with_refreshToken
          (Some (stored_hash_of (Tokens.refreshToken (issued (User.id u) (User.email u) w)) w))
          (clock w) u).
Proof.
  intros Hu.
  exact (stored_user_after_update (User.id u) _ (clock w) (set_entropy (S (entropy w)) w) u Hu).
Qed.

(** The rotation misses even under an exact comparison: the issuer is a
    function of the user, the second and the secret. A token presented
    within the second of its own issue is issued again, stored again, and
    accepted again. *)
Lemma refresh_reissues_within_second
  (t : string) (w : World) (c : JwtClaims) (u : User.t) (h : string) :
  valid_refresh_token t w c ->
  stored_user (sub (payload c)) w = Some u ->
  session_hash u = Some h ->
  bcrypt_compare t h = true ->
  Tokens.refreshToken (issued (User.id u) (User.email u) w) = t ->
  stored_hash_of t w <> EmptyString ->
  bcrypt_compare t (stored_hash_of t w) = true ->
  exists w2,
    AuthService.refreshToken t (rotated u w) =
    (Return (issued (User.id u) (User.email u) w), w2).
Proof.
  intros Hv Hu Hh Hcmp Hsame Hfull Hself.
  pose proof (find_some_holds _ _ _ Hu) as Hid. apply Nat.eqb_eq in Hid.
  assert (Hu' : stored_user (User.id u) w = Some u) by (rewrite Hid; exact Hu).
  eexists.
  rewrite (refresh_accepts t (rotated u w) c
             (Prisma.with_refreshToken
                (Some (stored_hash_of
                         (Tokens.refreshToken (issued (User.id u) (User.email u) w)) w))
                (clock w) u)
             (stored_hash_of (Tokens.refreshToken (issued (User.id u) (User.email u) w)) w)).
  - reflexivity.
  - exact Hv.
  - rewrite <- Hid. apply stored_user_rotated. exact Hu'.
  - rewrite Hsame. unfold session_hash, Prisma.with_refreshToken.
    cbn [User.refreshToken or_else].
    destruct (String.eqb (stored_hash_of t w) EmptyString) eqn:E; [|reflexivity].
    apply String.eqb_eq in E. contradiction.
  - rewrite Hsame. exact Hself.
Qed.

(** The claims of an accepted token are those its text decodes to, whatever
    the second: the token stays valid in every world with the same secrets
    whose clock has not reached its expiry. *)
Lemma valid_refresh_token_later (t : string) (w w2 : World) (c : JwtClaims) :
  valid_refresh_token t w c ->
  env w2 = env w ->
  (clock w2 < exp c)%N ->
  valid_refresh_token t w2 c.
Proof.
  intros [key [Hk Hc]] Henv Hlt. exists key. split; [rewrite Henv; exact Hk|].
  unfold Jwt.check in *.
  destruct (jwt_decode t key) as [d|]; [|discriminate].
  destruct (N.leb (exp d) (clock w)); [discriminate|].
  inversion Hc; subst d.
  destruct (N.leb_spec0 (exp c) (clock w2)) as [Hle|_]; [lia | reflexivity].
Qed.

(** C1. The rotation misses. [refreshToken] stores the hash of the refresh
    token it issues and tells a presented token by [bcrypt.compare] alone.
    When the presented token [t] is accepted and also matches the hash of
    the token issued in its place, the refresh succeeds, returns the new
    pair and overwrites the stored hash; and from then on, in every world
    with that credential store whose clock has not reached the expiry of
    [t], presenting [t] again succeeds once more and returns a fresh pair:
    it is not refused Unauthorized. With bcrypt the condition holds for the
    tokens of one user, which differ only past the 72 bytes it reads. *)
Theorem refresh_accepts_stale_token
  (t : string) (w : World) (c : JwtClaims) (u : User.t) (h : string) :
  valid_refresh_token t w c ->
  stored_user (sub (payload c)) w = Some u ->
  session_hash u = Some h ->
  bcrypt_compare t h = true ->
  let tokens := issued (User.id u) (User.email u) w in
  let h' := stored_hash_of (Tokens.refreshToken tokens) w in
  h' <> EmptyString ->
  bcrypt_compare t h' = true ->
  exists w1 u1,
    AuthService.refreshToken t w = (Return tokens, w1) /\
    stored_user (User.id u) w1 = Some u1 /\
    User.refreshToken u1 = Some h' /\
    (forall w2,
        users w2 = users w1 -> env w2 = env w1 -> (clock w2 < exp c)%N ->
        exists w3,
          AuthService.refreshToken t w2 =
            (Return (issued (User.id u) (User.email u) w2), w3) /\
          AuthService.refreshToken t w2 <> (Throw refresh_refused, w2)).
Proof.
  intros Hv Hu Hh Hcmp tokens h' Hfull Hstale.
  assert (Hid : User.id u = sub (payload c)).
  { apply find_some_holds in Hu. apply Nat.eqb_eq in Hu. exact Hu. }
  assert (Hu' : stored_user (User.id u) w = Some u) by (rewrite Hid; exact Hu).
  pose proof (stored_user_rotated u w Hu') as Hs1.
  exists (rotated u w), (Prisma.with_refreshToken (Some h') (clock w) u).
  split; [exact (refresh_accepts t w c u h Hv Hu Hh Hcmp)|].
  split; [exact Hs1|]. split; [reflexivity|].
  intros w2 Hus Henv Hlt.
  assert (Hv2 : valid_refresh_token t w2 c).
  { apply (valid_refresh_token_later t w w2 c Hv); [|exact Hlt].
    rewrite Henv. reflexivity. }
  assert (Hu2 : stored_user (sub (payload c)) w2 =
                Some (Prisma.with_refreshToken (Some h') (clock w) u)).
  { unfold stored_user in *. rewrite Hus, <- Hid. exact Hs1. }
  assert (Hh2 : session_hash (Prisma.with_refreshToken (Some h') (clock w) u) = Some h').
  { unfold session_hash, Prisma.with_refreshToken. cbn [User.refreshToken or_else].
    destruct (String.eqb h' EmptyString) eqn:E; [|reflexivity].
    apply String.eqb_eq in E. contradiction. }
  pose proof (refresh_accepts t w2 c _ h' Hv2 Hu2 Hh2 Hstale) as Hrun.
  eexists. split; [exact Hrun|].
  rewrite Hrun. discriminate.
Qed.

End Rotation.

(** ** Logout and the access-token check *)

Section Sessions.
Context {J : JwtService} {B : Bcrypt} {DS : Datasource}.

Lemma authenticate_run (t : string) (w : World) (c : JwtClaims) (u : User.t) :
  valid_access_token t w c ->
  stored_user (sub (payload c)) w = Some u ->
  JwtStrategy.authenticate (Some t) w =
  (Return (AuthUser.mk (User.id u) (User.email u) (User.name u)), w).
Proof.
  intros Hv Hu. unfold JwtStrategy.authenticate, bind at 1 2, gets.
  unfold valid_access_token in Hv. rewrite Hv.
  unfold JwtStrategy.validate, bind, Prisma.user_findUnique_id, gets.
  unfold stored_user in Hu. rewrite Hu. reflexivity.
Qed.

(** For an id with no user record the update fails, and [logout] lets the
    store's error through as it is. *)
Lemma logout_without_user (userId : Id) (w : World) :
  stored_user userId w = None ->
  AuthService.logout userId w = (Throw Prisma.P2025, w).
Proof.
  intros H. unfold AuthService.logout, bind.
  rewrite (user_update_missing userId None w H). reflexivity.
Qed.

(** C2. For the id of a stored user, [logout] returns its confirmation and
    leaves that user with no refresh-token hash. In every later world with
    that credential store, a refresh token whose subject is that user is
    refused Unauthorized, while an access token of that user that still
    verifies keeps authenticating the request as that user. *)
Theorem logout_contract (userId : Id) (w : World) (u : User.t) :
  stored_user userId w = Some u ->
  exists w1 u1,
    AuthService.logout userId w = (Return (Message.mk "Logged out successfully"), w1) /\
    stored_user userId w1 = Some u1 /\
    User.refreshToken u1 = None /\
    (forall t w2,
        users w2 = users w1 ->
        (forall c, valid_refresh_token t w2 c -> sub (payload c) = userId) ->
        AuthService.refreshToken t w2 = (Throw refresh_refused, w2)) /\
    (forall t w2 c,
        users w2 = users w1 ->
        valid_access_token t w2 c ->
        sub (payload c) = userId ->
        JwtStrategy.authenticate (Some t) w2 =
        (Return (AuthUser.mk userId (User.email u) (User.name u)), w2)).
Proof.
  intros Hu.
  set (w1 := set_users (map (rewrite_token userId None (clock w)) (users w)) w).
  set (u1 := Prisma.with_refreshToken None (clock w) u).
  assert (Hs1 : stored_user userId w1 = Some u1)
    by exact (stored_user_after_update userId None (clock w) w u Hu).
  assert (Hid : User.id u = userId).
  { apply find_some_holds in Hu. apply Nat.eqb_eq in Hu. exact Hu. }
  exists w1, u1. repeat split.
  - unfold AuthService.logout, bind. rewrite (user_update_run userId None w u Hu).
    reflexivity.
  - exact Hs1.
  - intros t w2 Hus Hsub. apply (refresh_refused_when t w2 u1); [|discriminate].
    intros c Hc. rewrite (Hsub c Hc). unfold stored_user in *. rewrite Hus. exact Hs1.
  - intros t w2 c Hus Hv Hsub.
    rewrite (authenticate_run t w2 c u1 Hv).
    + simpl. rewrite Hid. reflexivity.
    + rewrite Hsub. unfold stored_user in *. rewrite Hus. exact Hs1.
Qed.



(** C4. A login attempt whose email matches no user and a login attempt
    whose email matches a user but whose password does not compare equal to
    the stored hash fail alike: both throw the same Unauthorized exception
    with the same message, and neither changes the world. *)
Theorem login_enumeration_resistance
  (dto1 dto2 : LoginDto.t) (w1 w2 : World) (u : User.t) :
  stored_email (LoginDto.email dto1) w1 = None ->
  stored_email (LoginDto.email dto2) w2 = Some u ->
  bcrypt_compare (LoginDto.password dto2) (User.password u) = false ->
  AuthService.login dto1 w1 = (Throw invalid_credentials, w1) /\
  AuthService.login dto2 w2 = (Throw invalid_credentials, w2).
Proof.
  intros Hnone Hsome Hcmp. unfold stored_email in *. split.
  - unfold AuthService.login, bind, Prisma.user_findUnique_email, gets.
    rewrite Hnone. reflexivity.
  - unfold AuthService.login, bind at 1, Prisma.user_findUnique_email, gets.
    rewrite Hsome. unfold bind at 1, bcrypt.compare, ret at 1. rewrite Hcmp. reflexivity.
Qed.

End Sessions.

(** ** The notification channel *)

Section Notifications.

Lemma set_logs_twice (l1 l2 : list LogLine) (w : World) :
  set_logs l2 (set_logs l1 w) = set_logs l2 w.
Proof. reflexivity. Qed.

Lemma same_but_logs_set (l : list LogLine) (w : World) :
  same_but_logs (set_logs l w) w.
Proof. reflexivity. Qed.

(** A mail that was sent or not leaves a trace in the log and nowhere else,
    and the sending method always returns. *)
Lemma sendWelcomeEmail_absorbs (mail : MailService.t) (to name : string) (w : World) :
  exists r l, MailService.sendWelcomeEmail mail to name w = (Return r, set_logs (logs w ++ l) w).
Proof.
  unfold MailService.sendWelcomeEmail, try_catch, bind at 1, MailService.sendMail.
  destruct (MailService.transporter mail) as [channel|].
  - destruct (channel _) as [info|e].
    + eexists _, [_; _]. unfold bind, logger_log, modify, ret. simpl logs.
      rewrite set_logs_twice, <- app_assoc. reflexivity.
    + eexists _, [_]. reflexivity.
  - eexists _, [_]. reflexivity.
Qed.

Lemma sendPostCreatedEmail_absorbs
  (mail : MailService.t) (to userName postTitle : string) (postId : Id) (w : World) :
  exists r l,
    MailService.sendPostCreatedEmail mail to userName postTitle postId w =
    (Return r, set_logs (logs w ++ l) w).
Proof.
  unfold MailService.sendPostCreatedEmail, try_catch, bind at 1, MailService.sendMail.
  destruct (MailService.transporter mail) as [channel|].
  - destruct (channel _) as [info|e].
    + eexists _, [_; _]. unfold bind, logger_log, modify, ret. simpl logs.
      rewrite set_logs_twice, <- app_assoc. reflexivity.
    + eexists _, [_]. reflexivity.
  - eexists _, [_]. reflexivity.
Qed.

(** A delivery that fails is logged, and the caller gets [undefined]. *)
Lemma sendWelcomeEmail_logs_failure
  (mail : MailService.t) (to name : string) (e : Exception) (w : World) :
  fst (MailService.sendMail mail (MailService.welcome_options to name) w) = Throw e ->
  MailService.sendWelcomeEmail mail to name w =
  (Return None, set_logs (logs w ++ [welcome_failure to e]) w).
Proof.
  unfold MailService.sendWelcomeEmail, try_catch, bind at 1, MailService.sendMail.
  destruct (MailService.transporter mail) as [channel|]; simpl.
  - destruct (channel _) as [info|e']; [discriminate|].
    intros H. inversion H. reflexivity.
  - intros H. inversion H. reflexivity.
Qed.

Lemma sendPostCreatedEmail_logs_failure
  (mail : MailService.t) (to userName postTitle : string) (postId : Id)
  (e : Exception) (w : World) :
  fst (MailService.sendMail mail
         (MailService.post_created_options to userName postTitle postId) w) = Throw e ->
  MailService.sendPostCreatedEmail mail to userName postTitle postId w =
  (Return None, set_logs (logs w ++ [post_created_failure to e]) w).
Proof.
  unfold MailService.sendPostCreatedEmail, try_catch, bind at 1, MailService.sendMail.
  destruct (MailService.transporter mail) as [channel|]; simpl.
  - destruct (channel _) as [info|e']; [discriminate|].
    intros H. inversion H. reflexivity.
  - intros H. inversion H. reflexivity.
Qed.

End Notifications.

(** ** Registration *)

Section Registration.
Context {J : JwtService} {B : Bcrypt} {DS : Datasource}.

Lemma user_create_run (mail password name : string) (w : World) :
  stored_email mail w = None ->
  Prisma.user_create mail password name w =
  (Return (created_user mail password name w),
   set_users (users w ++ [created_user mail password name w])
     (set_next_id (S (next_id w)) w)).
Proof.
  intros H. unfold Prisma.user_create, bind at 1, Prisma.user_findUnique_email, gets at 1.
  unfold stored_email in H. rewrite H. reflexivity.
Qed.

Lemma register_conflict (mail : MailService.t) (dto : RegisterDto.t) (w : World) (u : User.t) :
  stored_email (RegisterDto.email dto) w = Some u ->
  AuthService.register mail dto w = (Throw (ConflictException "Email already exists"), w).
Proof.
  intros H. unfold AuthService.register, try_catch, bind, Prisma.user_findUnique_email, gets.
  unfold stored_email in H. rewrite H. reflexivity.
Qed.

Lemma register_run (mail : MailService.t) (dto : RegisterDto.t) (w : World) :
  stored_email (RegisterDto.email dto) w = None ->
  exists l,
    AuthService.register mail dto w =
    (Return
       (AuthResult.mk
          (Author.mk (next_id w) (RegisterDto.email dto) (RegisterDto.name dto))
          (Tokens.accessToken (issued (next_id w) (RegisterDto.email dto) w))
          (Tokens.refreshToken (issued (next_id w) (RegisterDto.email dto) w))),
     set_logs (logs w ++ l) (registered dto w)).
Proof.
  intros Hnone.
  set (hashed := bcrypt_hash (RegisterDto.password dto) 10 (entropy w)).
  set (w_a := set_entropy (S (entropy w)) w).
  set (user := created_user (RegisterDto.email dto) hashed (RegisterDto.name dto) w_a).
  set (w_b := set_users (users w ++ [user]) (set_next_id (S (next_id w)) w_a)).
  assert (Hfound : exists u0, stored_user (User.id user) w_b = Some u0).
  { unfold stored_user. simpl users. rewrite find_app_last.
    destruct (find (Prisma.user_has_id (User.id user)) (users w)) as [y|]; [eauto|].
    unfold Prisma.user_has_id. rewrite Nat.eqb_refl. eauto. }
  destruct Hfound as [u0 Hu0].
  destruct (sendWelcomeEmail_absorbs mail (User.email user) (User.name user) (registered dto w))
    as [r [l Hmail]].
  exists l.
  unfold AuthService.register, try_catch, bind at 1, Prisma.user_findUnique_email, gets at 1.
  unfold stored_email in Hnone. rewrite Hnone.
  unfold bind at 1, bcrypt.hash. fold hashed. fold w_a.
  unfold bind at 1.
  rewrite (user_create_run (RegisterDto.email dto) hashed (RegisterDto.name dto) w_a Hnone).
  fold user. change (set_users (users w_a ++ [user]) (set_next_id (S (next_id w_a)) w_a)) with w_b.
  unfold bind at 1. rewrite generateTokens_run.
  unfold bind at 1. rewrite (updateRefreshToken_run (User.id user) _ w_b u0 Hu0).
  unfold bind at 1, detach.
  change (set_users _ (set_entropy (S (entropy w_b)) w_b)) with (registered dto w).
  rewrite Hmail. reflexivity.
Qed.

Lemma stored_email_registered (dto : RegisterDto.t) (w : World) :
  stored_email (RegisterDto.email dto) w = None ->
  exists u, stored_email (RegisterDto.email dto) (registered dto w) = Some u.
Proof.
  intros Hnone. unfold stored_email, registered. simpl users.
  rewrite find_map_same by (intro; apply rewrite_token_email).
  rewrite find_app_last. unfold stored_email in Hnone. rewrite Hnone.
  unfold Prisma.user_has_email at 1. simpl User.email. rewrite String.eqb_refl.
  eexists. reflexivity.
Qed.

(** C5. [register] fails with Conflict when a user with the email is
    stored. Otherwise it succeeds and returns a user object made of the new
    id, the email and the name (the type has no other field) together with
    the access token and the refresh token just issued; and in every world
    with the credential store it leaves, registering that email again fails
    with Conflict. *)
Theorem register_contract (mail : MailService.t) (dto : RegisterDto.t) (w : World) :
  (stored_email (RegisterDto.email dto) w <> None ->
   AuthService.register mail dto w = (Throw (ConflictException "Email already exists"), w)) /\
  (stored_email (RegisterDto.email dto) w = None ->
   exists w1,
     AuthService.register mail dto w =
     (Return
        (AuthResult.mk
           (Author.mk (next_id w) (RegisterDto.email dto) (RegisterDto.name dto))
           (Tokens.accessToken (issued (next_id w) (RegisterDto.email dto) w))
           (Tokens.refreshToken (issued (next_id w) (RegisterDto.email dto) w))),
      w1) /\
     (forall mail' dto' w2,
         RegisterDto.email dto' = RegisterDto.email dto ->
         users w2 = users w1 ->
         AuthService.register mail' dto' w2 =
         (Throw (ConflictException "Email already exists"), w2))).
Proof.
  split.
  - intros Hsome.
    destruct (stored_email (RegisterDto.email dto) w) as [u|] eqn:Hu; [|congruence].
    exact (register_conflict mail dto w u Hu).
  - intros Hnone. destruct (register_run mail dto w Hnone) as [l Hrun].
    exists (set_logs (logs w ++ l) (registered dto w)). split; [exact Hrun|].
    intros mail' dto' w2 Hmail Hus.
    destruct (stored_email_registered dto w Hnone) as [u Hu].
    apply (register_conflict mail' dto' w2 u).
    rewrite Hmail. unfold stored_email in *. rewrite Hus. exact Hu.
Qed.

End Registration.

(** ** Post creation *)

Section Creation.
Context {DS : Datasource}.

Lemma create_run (mail : MailService.t) (userId : Id) (dto : CreatePostDto.t) (w : World)
  (u : User.t) :
  stored_user userId w = Some u ->
  exists l,
    PostsService.create mail userId dto w =
    (Return (created_post userId dto w, author_of u),
     set_logs (logs w ++ l) (with_post userId dto w)).
Proof.
  intros Hu.
  destruct (sendPostCreatedEmail_absorbs mail (User.email u) (User.name u)
              (CreatePostDto.title dto) (next_id w) (with_post userId dto w)) as [r [l Hmail]].
  exists l.
  unfold PostsService.create, try_catch, bind at 1, Prisma.post_create, bind at 1,
    Prisma.user_findUnique_id, gets at 1.
  unfold stored_user in Hu. rewrite Hu. cbv beta iota.
  unfold bind at 1, Prisma.fresh_id. unfold bind at 1, gets at 1.
  unfold bind at 1, modify, ret at 1. cbv beta iota.
  unfold bind at 1, detach. cbv beta iota.
  change (set_posts _ (set_next_id (S (next_id w)) w)) with (with_post userId dto w).
  simpl fst. simpl snd. simpl Author.email. simpl Author.name.
  change (Post.title _) with (CreatePostDto.title dto).
  change (Post.id _) with (next_id w).
  rewrite Hmail. reflexivity.
Qed.

Lemma create_without_author (mail : MailService.t) (userId : Id) (dto : CreatePostDto.t)
  (w : World) :
  stored_user userId w = None ->
  PostsService.create mail userId dto w = (Throw Prisma.P2003, w).
Proof.
  intros Hu.
  unfold PostsService.create, try_catch, bind at 1, Prisma.post_create, bind at 1,
    Prisma.user_findUnique_id, gets at 1.
  unfold stored_user in Hu. rewrite Hu. reflexivity.
Qed.

End Creation.

Section Absorption.
Context {J : JwtService} {B : Bcrypt} {DS : Datasource}.

(** C9. Sending the welcome mail or the post-created mail always returns
    and changes nothing but the log; a delivery that fails leaves its error
    line there. Whatever the mail service does, registration and post
    creation give the same outcome (the same returned value or the same
    exception) and leave the same world up to the log. *)
Theorem notification_absorbed
  (mail1 mail2 : MailService.t) (dto : RegisterDto.t)
  (userId : Id) (post : CreatePostDto.t) (to name title : string) (w : World) :
  (exists r w', MailService.sendWelcomeEmail mail1 to name w = (Return r, w') /\
                same_but_logs w' w) /\
  (forall e,
      fst (MailService.sendMail mail1 (MailService.welcome_options to name) w) = Throw e ->
      MailService.sendWelcomeEmail mail1 to name w =
      (Return None, set_logs (logs w ++ [welcome_failure to e]) w)) /\
  (exists r w', MailService.sendPostCreatedEmail mail1 to name title userId w = (Return r, w') /\
                same_but_logs w' w) /\
  (forall e,
      fst (MailService.sendMail mail1
             (MailService.post_created_options to name title userId) w) = Throw e ->
      MailService.sendPostCreatedEmail mail1 to name title userId w =
      (Return None, set_logs (logs w ++ [post_created_failure to e]) w)) /\
  fst (AuthService.register mail1 dto w) = fst (AuthService.register mail2 dto w) /\
  same_but_logs (snd (AuthService.register mail1 dto w))
                (snd (AuthService.register mail2 dto w)) /\
  fst (PostsService.create mail1 userId post w) = fst (PostsService.create mail2 userId post w) /\
  same_but_logs (snd (PostsService.create mail1 userId post w))
                (snd (PostsService.create mail2 userId post w)).
Proof.
  split; [|split; [|split; [|split]]].
  - destruct (sendWelcomeEmail_absorbs mail1 to name w) as [r [l H]].
    exists r, (set_logs (logs w ++ l) w). split; [exact H | reflexivity].
  - intros e. apply sendWelcomeEmail_logs_failure.
  - destruct (sendPostCreatedEmail_absorbs mail1 to name title userId w) as [r [l H]].
    exists r, (set_logs (logs w ++ l) w). split; [exact H | reflexivity].
  - intros e. apply sendPostCreatedEmail_logs_failure.
  - assert (Hreg :
      fst (AuthService.register mail1 dto w) = fst (AuthService.register mail2 dto w) /\
      same_but_logs (snd (AuthService.register mail1 dto w))
                    (snd (AuthService.register mail2 dto w))).
    { destruct (stored_email (RegisterDto.email dto) w) as [u|] eqn:Hu.
      - rewrite (register_conflict mail1 dto w u Hu), (register_conflict mail2 dto w u Hu).
        split; reflexivity.
      - destruct (register_run mail1 dto w Hu) as [l1 H1].
        destruct (register_run mail2 dto w Hu) as [l2 H2].
        rewrite H1, H2. split; reflexivity. }
    assert (Hpost :
      fst (PostsService.create mail1 userId post w) =
      fst (PostsService.create mail2 userId post w) /\
      same_but_logs (snd (PostsService.create mail1 userId post w))
                    (snd (PostsService.create mail2 userId post w))).
    { destruct (stored_user userId w) as [u|] eqn:Hu.
      - destruct (create_run mail1 userId post w u Hu) as [l1 H1].
        destruct (create_run mail2 userId post w u Hu) as [l2 H2].
        rewrite H1, H2. split; reflexivity.
      - rewrite (create_without_author mail1 userId post w Hu),
                (create_without_author mail2 userId post w Hu).
        split; reflexivity. }
    tauto.
Qed.

End Absorption.

(** ** Ownership guards *)

Lemma find_map_elsewhere {A} (p : A -> bool) (g : A -> A) (l : list A) :
  (forall x, p (g x) = p x) ->
  (forall x, p x = true -> g x = x) ->
  find p (map g l) = find p l.
Proof.
  intros Hp Hg. induction l as [|a l IH]; simpl; [reflexivity|].
  rewrite Hp. destruct (p a) eqn:E; [rewrite (Hg a E); reflexivity | exact IH].
Qed.

Lemma find_filter_elsewhere {A} (p q : A -> bool) (l : list A) :
  (forall x, p x = true -> q x = true) ->
  find p (filter q l) = find p l.
Proof.
  intros Hpq. induction l as [|a l IH]; simpl; [reflexivity|].
  destruct (p a) eqn:E.
  - rewrite (Hpq a E). simpl. rewrite E. reflexivity.
  - destruct (q a); simpl; [rewrite E|]; exact IH.
Qed.

Section Guards.
Context {DS : Datasource}.

Lemma rewrite_post_id id dto now i x :
  Prisma.post_has_id i (rewrite_post id dto now x) = Prisma.post_has_id i x.
Proof. unfold rewrite_post. destruct (Prisma.post_has_id id x); reflexivity. Qed.

(** What [updated] changes: the fields the request carries, and nothing of
    the identity or ownership of the post. *)
Lemma updated_fields (dto : UpdatePostDto.t) (now : N) (p : Post.t) :
  Post.id (updated dto now p) = Post.id p /\
  Post.authorId (updated dto now p) = Post.authorId p /\
  Post.createdAt (updated dto now p) = Post.createdAt p /\
  Post.fileUrl (updated dto now p) = Post.fileUrl p /\
  Post.title (updated dto now p) =
    match UpdatePostDto.title dto with Some t => t | None => Post.title p end /\
  Post.content (updated dto now p) =
    match UpdatePostDto.content dto with Some c => c | None => Post.content p end /\
  Post.published (updated dto now p) =
    match UpdatePostDto.published dto with Some b => b | None => Post.published p end.
Proof. repeat split. Qed.

Lemma update_absent (id userId : Id) (dto : UpdatePostDto.t) (w : World) :
  stored_post id w = None ->
  PostsService.update id userId dto w = (Throw (NotFoundException "Post not found"), w).
Proof.
  intros H. unfold PostsService.update, try_catch, bind, Prisma.post_findUnique, gets.
  unfold stored_post in H. rewrite H. reflexivity.
Qed.

Lemma remove_absent (id userId : Id) (w : World) :
  stored_post id w = None ->
  PostsService.remove id userId w = (Throw (NotFoundException "Post not found"), w).
Proof.
  intros H. unfold PostsService.remove, try_catch, bind, Prisma.post_findUnique, gets.
  unfold stored_post in H. rewrite H. reflexivity.
Qed.

Lemma update_foreign (id userId : Id) (dto : UpdatePostDto.t) (w : World) (p : Post.t) :
  stored_post id w = Some p -> Post.authorId p <> userId ->
  PostsService.update id userId dto w =
  (Throw (ForbiddenException "You can only update your own posts"), w).
Proof.
  intros H Hne. unfold PostsService.update, try_catch, bind, Prisma.post_findUnique, gets.
  unfold stored_post in H. rewrite H.
  apply Nat.eqb_neq in Hne. rewrite Hne. reflexivity.
Qed.

Lemma remove_foreign (id userId : Id) (w : World) (p : Post.t) :
  stored_post id w = Some p -> Post.authorId p <> userId ->
  PostsService.remove id userId w =
  (Throw (ForbiddenException "You can only delete your own posts"), w).
Proof.
  intros H Hne. unfold PostsService.remove, try_catch, bind, Prisma.post_findUnique, gets.
  unfold stored_post in H. rewrite H.
  apply Nat.eqb_neq in Hne. rewrite Hne. reflexivity.
Qed.

Lemma update_own (id userId : Id) (dto : UpdatePostDto.t) (w : World) (p : Post.t) :
  stored_post id w = Some p -> Post.authorId p = userId ->
  PostsService.update id userId dto w =
  (Return (updated dto (clock w) p,
           option_map author_of (stored_user (Post.authorId p) w)),
   set_posts (map (rewrite_post id dto (clock w)) (posts w)) w).
Proof.
  intros H Ho.
  unfold PostsService.update, try_catch, bind at 1, Prisma.post_findUnique, gets at 1.
  unfold stored_post in H. rewrite H.
  apply Nat.eqb_eq in Ho. rewrite Ho. cbn [negb].
  unfold bind at 1, Prisma.post_update, bind at 1, Prisma.post_findUnique, gets at 1.
  rewrite H. reflexivity.
Qed.

Lemma remove_own (id userId : Id) (w : World) (p : Post.t) :
  stored_post id w = Some p -> Post.authorId p = userId ->
  exists w1,
    PostsService.remove id userId w = (Return (Message.mk "Post deleted successfully"), w1) /\
    posts w1 = filter (fun x => negb (Prisma.post_has_id id x)) (posts w).
Proof.
  intros H Ho.
  unfold PostsService.remove, try_catch, bind at 1, Prisma.post_findUnique, gets at 1.
  unfold stored_post in H. rewrite H.
  apply Nat.eqb_eq in Ho. rewrite Ho. cbn [negb].
  unfold bind at 1, Prisma.post_delete, bind at 1, Prisma.post_findUnique, gets at 1.
  rewrite H. unfold bind, modify, ret.
  destruct cascade_replies; eexists; split; reflexivity.
Qed.

(** C6. [update] and [remove] fail Not-Found when no post has the id,
    whoever asks; they fail Forbidden when the post exists and its author is
    not the acting user; otherwise they succeed: [update] returns the post
    with the given fields applied and stores it under the id, [remove]
    confirms and the id no longer finds a post; every other post stays as
    it was. *)
Theorem post_mutation_guard (id userId : Id) (dto : UpdatePostDto.t) (w : World) :
  (stored_post id w = None ->
   PostsService.update id userId dto w = (Throw (NotFoundException "Post not found"), w) /\
   PostsService.remove id userId w = (Throw (NotFoundException "Post not found"), w)) /\
  (forall p, stored_post id w = Some p -> Post.authorId p <> userId ->
   PostsService.update id userId dto w =
     (Throw (ForbiddenException "You can only update your own posts"), w) /\
   PostsService.remove id userId w =
     (Throw (ForbiddenException "You can only delete your own posts"), w)) /\
  (forall p, stored_post id w = Some p -> Post.authorId p = userId ->
   (exists author w1,
       PostsService.update id userId dto w = (Return (updated dto (clock w) p, author), w1) /\
       stored_post id w1 = Some (updated dto (clock w) p) /\
       (forall id', id' <> id -> stored_post id' w1 = stored_post id' w)) /\
   (exists w1,
       PostsService.remove id userId w =
         (Return (Message.mk "Post deleted successfully"), w1) /\
       stored_post id w1 = None /\
       (forall id', id' <> id -> stored_post id' w1 = stored_post id' w))).
Proof.
  split; [|split].
  - intros H. split; [apply update_absent | apply remove_absent]; exact H.
  - intros p H Hne. split; [apply (update_foreign _ _ _ _ p) | apply (remove_foreign _ _ _ p)];
      assumption.
  - intros p H Ho. split.
    + eexists _, _. split; [apply (update_own id userId dto w p H Ho)|]. split.
      * unfold stored_post in *. simpl posts.
        rewrite find_map_same by (intro; apply rewrite_post_id).
        rewrite H. simpl. unfold rewrite_post.
        rewrite (find_some_holds _ _ _ H). reflexivity.
      * intros id' Hid'. unfold stored_post. simpl posts.
        apply find_map_elsewhere; [intro; apply rewrite_post_id|].
        intros x Hx. unfold rewrite_post.
        destruct (Prisma.post_has_id id x) eqn:E; [|reflexivity].
        unfold Prisma.post_has_id in *. apply Nat.eqb_eq in Hx, E. congruence.
    + destruct (remove_own id userId w p H Ho) as [w1 [Hrun Hposts]].
      exists w1. split; [exact Hrun|]. unfold stored_post. rewrite Hposts. split.
      * apply find_filter_negb.
      * intros id' Hid'. apply find_filter_elsewhere.
        intros x Hx. unfold Prisma.post_has_id in *. apply Nat.eqb_eq in Hx.
        apply negb_true_iff. apply Nat.eqb_neq. congruence.
Qed.

Lemma deleteReply_own (replyId userId : Id) (w : World) (r : Reply.t) :
  stored_reply replyId w = Some r -> Reply.authorId r = userId ->
  PostsService.deleteReply replyId userId w =
  (Return (Message.mk "Reply deleted successfully"),
   set_replies (filter (fun x => negb (Prisma.reply_has_id replyId x)) (replies w)) w).
Proof.
  intros H Ho.
  unfold PostsService.deleteReply, try_catch, bind at 1, Prisma.reply_findUnique, gets at 1.
  unfold stored_reply in H. rewrite H.
  apply Nat.eqb_eq in Ho. rewrite Ho. cbn [negb].
  unfold bind at 1, Prisma.reply_delete, bind at 1, Prisma.reply_findUnique, gets at 1.
  rewrite H. reflexivity.
Qed.

Lemma deleteReply_foreign (replyId userId : Id) (w : World) (r : Reply.t) :
  stored_reply replyId w = Some r -> Reply.authorId r <> userId ->
  PostsService.deleteReply replyId userId w =
  (Throw (ForbiddenException "You can only delete your own replies"), w).
Proof.
  intros H Hne.
  unfold PostsService.deleteReply, try_catch, bind, Prisma.reply_findUnique, gets.
  unfold stored_reply in H. rewrite H.
  apply Nat.eqb_neq in Hne. rewrite Hne. reflexivity.
Qed.

(** C7. [deleteReply] fails Not-Found when no reply has the id. For an
    existing reply it succeeds when the acting user is the reply's author,
    and the reply is gone; it fails Forbidden for every other user, and the
    author of the parent post is such a user when the reply is not theirs. *)
Theorem reply_deletion_ownership (replyId userId : Id) (w : World) :
  (stored_reply replyId w = None ->
   PostsService.deleteReply replyId userId w =
     (Throw (NotFoundException "Reply not found"), w)) /\
  (forall r, stored_reply replyId w = Some r ->
   (Reply.authorId r = userId ->
    exists w1,
      PostsService.deleteReply replyId userId w =
        (Return (Message.mk "Reply deleted successfully"), w1) /\
      stored_reply replyId w1 = None) /\
   (Reply.authorId r <> userId ->
    PostsService.deleteReply replyId userId w =
      (Throw (ForbiddenException "You can only delete your own replies"), w)) /\
   (forall p, stored_post (Reply.postId r) w = Some p ->
              Post.authorId p = userId -> Reply.authorId r <> userId ->
    PostsService.deleteReply replyId userId w =
      (Throw (ForbiddenException "You can only delete your own replies"), w)) /\
   ((exists m w1, PostsService.deleteReply replyId userId w = (Return m, w1)) ->
    Reply.authorId r = userId)).
Proof.
  split.
  - intros H.
    unfold PostsService.deleteReply, try_catch, bind, Prisma.reply_findUnique, gets.
    unfold stored_reply in H. rewrite H. reflexivity.
  - intros r H. repeat split.
    + intros Ho. eexists. split; [apply (deleteReply_own replyId userId w r H Ho)|].
      unfold stored_reply. simpl replies. apply find_filter_negb.
    + intros Hne. apply (deleteReply_foreign replyId userId w r H Hne).
    + intros p _ _ Hne. apply (deleteReply_foreign replyId userId w r H Hne).
    + intros [m [w1 Hrun]].
      destruct (Nat.eq_dec (Reply.authorId r) userId) as [E|Hne]; [exact E|].
      rewrite (deleteReply_foreign replyId userId w r H Hne) in Hrun. discriminate.
Qed.

(** C10. The handler of [DELETE /posts/:postId/reply/:replyId] gives the
    same result whatever [postId] the address carries; for a reply written
    by the acting user the deletion goes through, with no condition relating
    the reply's post to that [postId]. *)
Theorem deleteReply_ignores_postId
  (postId postId' replyId : Id) (req_user : AuthUser.t) (w : World) :
  PostsController.deleteReply postId replyId req_user w =
  PostsController.deleteReply postId' replyId req_user w /\
  (forall r, stored_reply replyId w = Some r ->
             Reply.authorId r = AuthUser.userId req_user ->
   exists w1,
     PostsController.deleteReply postId replyId req_user w =
       (Return (Message.mk "Reply deleted successfully"), w1) /\
     stored_reply replyId w1 = None).
Proof.
  split; [reflexivity|].
  intros r H Ho. unfold PostsController.deleteReply. eexists.
  split; [apply (deleteReply_own replyId _ w r H Ho)|].
  unfold stored_reply. simpl replies. apply find_filter_negb.
Qed.

End Guards.

(** ** Pagination *)

Section Ordering.
Context {DS : Datasource}.

Lemma insert_desc_perm (p : Post.t) (l : list Post.t) :
  Permutation (Prisma.insert_desc p l) (p :: l).
Proof.
  induction l as [|q l IH]; simpl; [apply Permutation_refl|].
  destruct (N.leb (Post.createdAt q) (Post.createdAt p)).
  - apply Permutation_refl.
  - apply perm_trans with (q :: p :: l); [apply perm_skip; exact IH | apply perm_swap].
Qed.

Lemma insert_desc_sorted (p : Post.t) (l : list Post.t) :
  StronglySorted newer_first l -> StronglySorted newer_first (Prisma.insert_desc p l).
Proof.
  induction 1 as [|q l Hsorted IH Hall]; simpl.
  - constructor; constructor.
  - destruct (N.leb (Post.createdAt q) (Post.createdAt p)) eqn:E.
    + apply N.leb_le in E. constructor; [constructor; assumption|].
      constructor; [exact E|].
      eapply Forall_impl; [|exact Hall]. unfold newer_first. intros x Hx. lia.
    + apply N.leb_gt in E. constructor; [exact IH|].
      apply (Permutation_Forall (Permutation_sym (insert_desc_perm p l))).
      constructor; [unfold newer_first; lia | exact Hall].
Qed.

Lemma orderBy_perm (l : list Post.t) :
  Permutation (Prisma.orderBy_createdAt_desc l) l.
Proof.
  induction l as [|p l IH]; simpl; [constructor|].
  eapply perm_trans; [apply insert_desc_perm|]. apply perm_skip. exact IH.
Qed.

Lemma orderBy_sorted (l : list Post.t) :
  StronglySorted newer_first (Prisma.orderBy_createdAt_desc l).
Proof.
  induction l as [|p l IH]; simpl; [constructor|]. apply insert_desc_sorted. exact IH.
Qed.

Lemma sorted_skipn {A} (R : A -> A -> Prop) (n : nat) (l : list A) :
  StronglySorted R l -> StronglySorted R (skipn n l).
Proof.
  revert l. induction n as [|n IH]; intros l H; [exact H|].
  destruct l as [|a l]; [constructor|]. simpl. apply IH.
  inversion H; assumption.
Qed.

Lemma sorted_firstn {A} (R : A -> A -> Prop) (n : nat) (l : list A) :
  StronglySorted R l -> StronglySorted R (firstn n l).
Proof.
  revert l. induction n as [|n IH]; intros l H; [constructor|].
  destruct l as [|a l]; [constructor|]. simpl. inversion H as [|? ? Hs Hall]; subst.
  constructor; [apply IH; exact Hs|].
  rewrite Forall_forall in *. intros x Hx. apply Hall.
  rewrite <- (firstn_skipn n l). apply in_or_app. left. exact Hx.
Qed.

Lemma filter_everything {A} (l : list A) : filter (fun _ => true) l = l.
Proof. induction l as [|a l IH]; simpl; [reflexivity | rewrite IH; reflexivity]. Qed.

Lemma item_post_list_item (w : World) (l : list Post.t) :
  map Prisma.item_post (map (Prisma.list_item w) l) = l.
Proof. rewrite map_map. simpl. apply map_id. Qed.

(** C8. With no search text, a page number from 1 on and a limit from 0
    on, [findAll] returns the number of stored posts as total, echoes page
    and limit, and returns the posts found by listing all posts
    newest-first, skipping (page-1)*limit of them and taking limit; that
    listing is a rearrangement of the stored posts in which no post comes
    before a newer one. For page 1 and limit 10 the page holds
    min(total, 10) posts. *)
Theorem pagination_shape (page limit : Z) (w : World) :
  (1 <= page)%Z -> (0 <= limit)%Z ->
  exists pg,
    PostsService.findAll page limit None w = (Return pg, w) /\
    Page.total pg = List.length (posts w) /\
    Page.page pg = page /\
    Page.limit pg = limit /\
    map Prisma.item_post (Page.posts pg) =
      firstn (Z.to_nat limit)
        (skipn (Z.to_nat ((page - 1) * limit)) (Prisma.orderBy_createdAt_desc (posts w))) /\
    Permutation (Prisma.orderBy_createdAt_desc (posts w)) (posts w) /\
    StronglySorted newer_first (Prisma.orderBy_createdAt_desc (posts w)) /\
    StronglySorted newer_first (map Prisma.item_post (Page.posts pg)) /\
    (page = 1%Z -> limit = 10%Z ->
     List.length (Page.posts pg) = Nat.min (List.length (posts w)) 10).
Proof.
  intros Hpage Hlimit.
  assert (Hskip : ((page - 1) * limit <? 0)%Z = false) by (apply Z.ltb_ge; nia).
  assert (Htake : (limit <? 0)%Z = false) by (apply Z.ltb_ge; lia).
  eexists. split.
  - unfold PostsService.findAll, try_catch, bind at 1, Prisma.post_findMany, Prisma.window.
    simpl PostsService.where_search. rewrite filter_everything, Hskip, Htake.
    unfold bind, Prisma.post_count, gets, ret. rewrite filter_everything. reflexivity.
  - simpl. rewrite item_post_list_item.
    repeat split.
    + apply orderBy_perm.
    + apply orderBy_sorted.
    + apply sorted_firstn, sorted_skipn, orderBy_sorted.
    + intros -> ->. rewrite length_map. simpl skipn.
      rewrite length_firstn, (Permutation_length (orderBy_perm (posts w))).
      change (Z.to_nat 10) with 10. apply Nat.min_comm.
Qed.

End Ordering.

(** * The properties on concrete worlds *)

Section Runs.
Import Reference Scenario.

(** [alice_world] is the world registration leaves behind. *)
Example alice_world_reached :
  fst (AuthService.register mail_ok alice_dto empty_world) =
    Return (AuthResult.mk (Author.mk 1 "a@x.com" "A") alice_access alice_refresh) /\
  same_but_logs (snd (AuthService.register mail_ok alice_dto empty_world)) alice_world.
Proof. split; vm_compute; reflexivity. Qed.

(** C1 at a concrete input: at second 5000 Alice presents the refresh
    token she got at second 1000. She gets a new pair, with another refresh
    token; at second 6000 the old token is accepted again. *)
Lemma refresh_accepts_stale_token_witness :
  exists w1 w3,
    AuthService.refreshToken alice_refresh (set_clock 5000%N alice_world) =
      (Return (Tokens.mk (alice_access_at 5000) (alice_refresh_at 5000)), w1) /\
    alice_refresh_at 5000 <> alice_refresh /\
    AuthService.refreshToken alice_refresh (set_clock 6000%N w1) =
      (Return (Tokens.mk (alice_access_at 6000) (alice_refresh_at 6000)), w3) /\
    AuthService.refreshToken alice_refresh (set_clock 6000%N w1) <>
      (Throw refresh_refused, set_clock 6000%N w1).
Proof.
  assert (Hv : valid_refresh_token alice_refresh (set_clock 5000%N alice_world) alice_claims).
  { exists "r3fresh". split; vm_compute; reflexivity. }
  assert (Hfull : stored_hash_of (alice_refresh_at 5000) (set_clock 5000%N alice_world)
                  <> EmptyString).
  { vm_compute. discriminate. }
  pose proof (refresh_accepts_stale_token alice_refresh (set_clock 5000%N alice_world)
                alice_claims alice (hash alice_refresh 10 1) Hv eq_refl eq_refl eq_refl
                Hfull eq_refl) as H.
  destruct H as [w1 [u1 [H1 [_ [_ H4]]]]].
  destruct (H4 (set_clock 6000%N w1) eq_refl eq_refl) as [w3 [H5 H6]];
    [vm_compute; reflexivity|].
  assert (He : env w1 = env0).
  { replace w1 with
      (snd (AuthService.refreshToken alice_refresh (set_clock 5000%N alice_world)))
      by (rewrite H1; reflexivity).
    vm_compute. reflexivity. }
  exists w1, w3.
  split; [exact H1|]. split; [vm_compute; discriminate|].
  split; [|exact H6].
  rewrite H5. unfold issued, set_clock. cbn [env clock]. rewrite He.
  vm_compute. reflexivity.
Defined.

(** Within the second in which her token was issued, Alice's refresh
    re-issues the very same refresh token, and presenting it a second time
    succeeds again. *)
Lemma refresh_rotation_same_second :
  valid_refresh_token alice_refresh alice_world alice_claims /\
  stored_user (sub (payload alice_claims)) alice_world = Some alice /\
  session_hash alice = Some (hash alice_refresh 10 1) /\
  bcrypt_compare alice_refresh (hash alice_refresh 10 1) = true /\
  exists w1 w2,
    AuthService.refreshToken alice_refresh alice_world =
      (Return (Tokens.mk alice_access alice_refresh), w1) /\
    AuthService.refreshToken alice_refresh w1 =
      (Return (Tokens.mk alice_access alice_refresh), w2).
Proof.
  split; [exists "r3fresh"; split; vm_compute; reflexivity|].
  split; [reflexivity|]. split; [reflexivity|]. split; [vm_compute; reflexivity|].
  eexists. eexists. split; vm_compute; reflexivity.
Qed.

(** C2 at a concrete input: Alice logs out; her refresh token is refused,
    her access token still authenticates her. *)
Lemma logout_contract_witness :
  exists w1,
    AuthService.logout 1 alice_world =
      (Return (Message.mk "Logged out successfully"), w1) /\
    stored_user 1 w1 = Some (Prisma.with_refreshToken None 1000%N alice) /\
    AuthService.refreshToken alice_refresh w1 = (Throw refresh_refused, w1) /\
    JwtStrategy.authenticate (Some alice_access) w1 =
      (Return (AuthUser.mk 1 "a@x.com" "A"), w1).
Proof.
  destruct (logout_contract 1 alice_world alice eq_refl) as [w1 [u1 [H1 [H2 [H3 [H4 H5]]]]]].
  assert (Hw : w1 = set_users [Prisma.with_refreshToken None 1000%N alice] alice_world).
  { apply (f_equal snd) in H1. simpl in H1. rewrite <- H1. vm_compute. reflexivity. }
  exists w1. split; [exact H1|]. split; [rewrite Hw; reflexivity|]. split.
  - apply H4; [reflexivity|]. rewrite Hw. intros c [key [Hk Hc]].
    vm_compute in Hk. inversion Hk; subst key. vm_compute in Hc. inversion Hc. reflexivity.
  - apply (H5 alice_access w1 (mkClaims (mkPayload 1 "a@x.com") 1000%N 1900%N));
      [reflexivity | rewrite Hw; vm_compute; reflexivity | reflexivity].
Defined.



(** C4 at a concrete input: an unknown email and Alice's email with a wrong
    password get the same answer. *)
Lemma login_enumeration_resistance_witness :
  AuthService.login (LoginDto.mk "nobody@x.com" "pw123456") alice_world =
    (Throw invalid_credentials, alice_world) /\
  AuthService.login (LoginDto.mk "a@x.com" "wrong") alice_world =
    (Throw invalid_credentials, alice_world).
Proof.
  apply (login_enumeration_resistance
           (LoginDto.mk "nobody@x.com" "pw123456") (LoginDto.mk "a@x.com" "wrong")
           alice_world alice_world alice);
    vm_compute; reflexivity.
Defined.

(** C5 at a concrete input: Alice registers in the empty store, and a
    second registration of her email is refused. *)
Lemma register_contract_witness :
  exists w1,
    AuthService.register mail_down alice_dto empty_world =
      (Return (AuthResult.mk (Author.mk 1 "a@x.com" "A") alice_access alice_refresh), w1) /\
    AuthService.register mail_ok (RegisterDto.mk "a@x.com" "other" "A2") w1 =
      (Throw (ConflictException "Email already exists"), w1).
Proof.
  destruct (register_contract mail_down alice_dto empty_world) as [_ Hfresh].
  destruct (Hfresh eq_refl) as [w1 [Hrun Hagain]].
  exists w1. split.
  - rewrite Hrun. vm_compute. reflexivity.
  - apply Hagain; reflexivity.
Defined.

(** C6 at a concrete input, in the forum: nobody finds post 9; Bob may not
    touch Alice's post 3; Alice retitles it, and Alice deletes it. *)
Lemma post_mutation_guard_witness :
  PostsService.update 9 1 retitle forum_world =
    (Throw (NotFoundException "Post not found"), forum_world) /\
  PostsService.remove 9 1 forum_world =
    (Throw (NotFoundException "Post not found"), forum_world) /\
  PostsService.update 3 2 retitle forum_world =
    (Throw (ForbiddenException "You can only update your own posts"), forum_world) /\
  PostsService.remove 3 2 forum_world =
    (Throw (ForbiddenException "You can only delete your own posts"), forum_world) /\
  (exists author w1,
      PostsService.update 3 1 retitle forum_world =
        (Return (Post.mk 3 "T2" "C" true 1 None 1600%N 2000%N, author), w1) /\
      stored_post 3 w1 = Some (Post.mk 3 "T2" "C" true 1 None 1600%N 2000%N) /\
      stored_post 5 w1 = Some post5) /\
  (exists w1,
      PostsService.remove 3 1 forum_world =
        (Return (Message.mk "Post deleted successfully"), w1) /\
      stored_post 3 w1 = None /\
      stored_post 5 w1 = Some post5).
Proof.
  destruct (post_mutation_guard 9 1 retitle forum_world) as [Habsent _].
  destruct (Habsent eq_refl) as [Hu9 Hr9].
  destruct (post_mutation_guard 3 2 retitle forum_world) as [_ [Hforeign _]].
  destruct (Hforeign post3 eq_refl) as [Hu3 Hr3]; [discriminate|].
  destruct (post_mutation_guard 3 1 retitle forum_world) as [_ [_ Hown]].
  destruct (Hown post3 eq_refl eq_refl) as [[author [w1 [Hu [Hs Ho]]]] [w2 [Hr [Hn Hk]]]].
  repeat split; try assumption.
  - exists author, w1. repeat split; [exact Hu | exact Hs |].
    rewrite Ho; [reflexivity | discriminate].
  - exists w2. repeat split; [exact Hr | exact Hn |].
    rewrite Hk; [reflexivity | discriminate].
Defined.

(** C7 at a concrete input: Alice owns post 3 but not Bob's reply 4 to it,
    and is refused; Bob deletes his reply; nobody finds reply 9. *)
Lemma reply_deletion_ownership_witness :
  PostsService.deleteReply 9 2 forum_world =
    (Throw (NotFoundException "Reply not found"), forum_world) /\
  PostsService.deleteReply 4 1 forum_world =
    (Throw (ForbiddenException "You can only delete your own replies"), forum_world) /\
  (exists w1,
      PostsService.deleteReply 4 2 forum_world =
        (Return (Message.mk "Reply deleted successfully"), w1) /\
      stored_reply 4 w1 = None).
Proof.
  destruct (reply_deletion_ownership 9 2 forum_world) as [Habsent _].
  destruct (reply_deletion_ownership 4 1 forum_world) as [_ Halice].
  destruct (Halice reply4 eq_refl) as [_ [_ [Howner _]]].
  destruct (reply_deletion_ownership 4 2 forum_world) as [_ Hbob].
  destruct (Hbob reply4 eq_refl) as [Hown _].
  split; [exact (Habsent eq_refl)|].
  split; [apply (Howner post3); [reflexivity | reflexivity | discriminate]|].
  exact (Hown eq_refl).
Defined.

(** C10 at a concrete input: Bob deletes his reply 4, which belongs to
    post 3, through the address of post 99. *)
Lemma deleteReply_ignores_postId_witness :
  exists w1,
    PostsController.deleteReply 99 4 (AuthUser.mk 2 "b@x.com" "B") forum_world =
      (Return (Message.mk "Reply deleted successfully"), w1) /\
    stored_reply 4 w1 = None.
Proof.
  destruct (deleteReply_ignores_postId 99 3 4 (AuthUser.mk 2 "b@x.com" "B") forum_world)
    as [_ H].
  exact (H reply4 eq_refl eq_refl).
Defined.

(** C8 at a concrete input: the first page of ten of the forum's three
    posts holds the three of them, newest first. *)
Lemma pagination_shape_witness :
  exists pg,
    PostsService.findAll 1 10 None forum_world = (Return pg, forum_world) /\
    Page.total pg = 3 /\
    Page.page pg = 1%Z /\
    Page.limit pg = 10%Z /\
    map Prisma.item_post (Page.posts pg) = [post5; post6; post3] /\
    List.length (Page.posts pg) = 3.
Proof.
  destruct (pagination_shape 1 10 forum_world) as [pg [H1 [H2 [H3 [H4 [H5 [_ [_ [_ H9]]]]]]]]];
    [lia | lia |].
  exists pg.
  split; [exact H1|]. split; [rewrite H2; reflexivity|].
  split; [exact H3|]. split; [exact H4|].
  split; [rewrite H5; vm_compute; reflexivity|].
  rewrite (H9 eq_refl eq_refl). reflexivity.
Defined.

(** C9 at a concrete input: with the mail channel down, Alice's
    registration and her first post come out as with the channel up, and
    the failure is in the log. *)
Lemma notification_absorbed_witness :
  MailService.sendWelcomeEmail mail_down "a@x.com" "A" empty_world =
    (Return None,
     set_logs [welcome_failure "a@x.com" (Error "connect ECONNREFUSED")] empty_world) /\
  fst (AuthService.register mail_down alice_dto empty_world) =
  fst (AuthService.register mail_ok alice_dto empty_world) /\
  fst (PostsService.create mail_down 1 first_post alice_world) =
  fst (PostsService.create mail_ok 1 first_post alice_world).
Proof.
  destruct (notification_absorbed mail_down mail_ok alice_dto 1 first_post
              "a@x.com" "A" "T" empty_world) as [_ [Hlog [_ [_ [Hreg _]]]]].
  destruct (notification_absorbed mail_down mail_ok alice_dto 1 first_post
              "a@x.com" "A" "T" alice_world) as [_ [_ [_ [_ [_ [_ [Hpost _]]]]]]].
  split; [exact (Hlog (Error "connect ECONNREFUSED") eq_refl)|].
  split; [exact Hreg | exact Hpost].
Defined.

End Runs.

(** * Further properties of the services *)

(** ** Login, and what follows a login *)

Section Login.
Context {J : JwtService} {B : Bcrypt} {DS : Datasource}.

Lemma stored_email_has_id (mail : string) (w : World) (u : User.t) :
  stored_email mail w = Some u ->
  exists u0, stored_user (User.id u) w = Some u0.
Proof.
  intros H. unfold stored_email, stored_user in *.
  destruct (find (Prisma.user_has_id (User.id u)) (users w)) as [u0|] eqn:E; [eauto|].
  apply find_some in H. destruct H as [Hin _].
  pose proof (find_none _ _ E u Hin) as Hno.
  unfold Prisma.user_has_id in Hno. rewrite Nat.eqb_refl in Hno. discriminate.
Qed.

Lemma login_run (dto : LoginDto.t) (w : World) (u : User.t) :
  stored_email (LoginDto.email dto) w = Some u ->
  bcrypt_compare (LoginDto.password dto) (User.password u) = true ->
  AuthService.login dto w =
  (Return (AuthResult.mk (author_of u)
             (Tokens.accessToken (issued (User.id u) (User.email u) w))
             (Tokens.refreshToken (issued (User.id u) (User.email u) w))),
   rotated u w).
Proof.
  intros Hu Hcmp. destruct (stored_email_has_id _ _ _ Hu) as [u0 Hu0].
  unfold AuthService.login, bind at 1, Prisma.user_findUnique_email, gets at 1.
  unfold stored_email in Hu. rewrite Hu.
  unfold bind at 1, bcrypt.compare, ret at 1. rewrite Hcmp. cbn [negb].
  unfold bind at 1. rewrite generateTokens_run.
  unfold bind at 1. rewrite (updateRefreshToken_run (User.id u) _ w u0 Hu0). reflexivity.
Qed.

Lemma credentials_rewrite_token (id : Id) (rt : option string) (now : N) (l : list User.t) :
  map credentials (map (rewrite_token id rt now) l) = map credentials l.
Proof.
  rewrite map_map. apply map_ext. intros x. unfold rewrite_token.
  destruct (Prisma.user_has_id id x); reflexivity.
Qed.

Lemma same_accounts_rotated (u : User.t) (w : World) : same_accounts w (rotated u w).
Proof.
  unfold same_accounts, rotated. simpl. rewrite credentials_rewrite_token. auto.
Qed.

Lemma session_rows_rewritten (id : Id) (h : string) (now : N) (l : list User.t) :
  Forall2 (session_row id h now) l (map (rewrite_token id (Some h) now) l).
Proof.
  induction l as [|x l IH]; simpl; constructor; [|exact IH].
  unfold session_row, rewrite_token, Prisma.user_has_id.
  destruct (Nat.eqb (User.id x) id); [|reflexivity].
  split; [reflexivity|]. split; reflexivity.
Qed.

(** X1. A login with the right password returns the user's id, email and name
    with a freshly issued pair, stores the hash of the new refresh token
    for that user, and changes nothing else: row by row, the users are those
    of before, in the same order, the row of the user with the new hash and
    the store's stamp, every other row untouched, its refresh-token hash
    included; posts, replies, the identifier counter, the clock, the
    environment and the log are as they were. *)
Theorem login_success (dto : LoginDto.t) (w : World) (u : User.t) :
  stored_email (LoginDto.email dto) w = Some u ->
  bcrypt_compare (LoginDto.password dto) (User.password u) = true ->
  let tokens := issued (User.id u) (User.email u) w in
  let h' := stored_hash_of (Tokens.refreshToken tokens) w in
  exists w1 u1,
    AuthService.login dto w =
      (Return (AuthResult.mk (author_of u)
                 (Tokens.accessToken tokens) (Tokens.refreshToken tokens)), w1) /\
    stored_user (User.id u) w1 = Some u1 /\
    User.refreshToken u1 = Some h' /\
    same_accounts w w1 /\
    Forall2 (session_row (User.id u) h' (clock w)) (users w) (users w1) /\
    next_id w1 = next_id w /\ clock w1 = clock w /\ env w1 = env w /\ logs w1 = logs w.
Proof.
  intros Hu Hcmp tokens h'. destruct (stored_email_has_id _ _ _ Hu) as [u0 Hu0].
  exists (rotated u w). eexists.
  split; [exact (login_run dto w u Hu Hcmp)|].
  split; [exact (stored_user_after_update (User.id u) _ (clock w)
                   (set_entropy (S (entropy w)) w) u0 Hu0)|].
  split; [reflexivity|]. split; [apply same_accounts_rotated|].
  split; [apply session_rows_rewritten|].
  split; [reflexivity|]. split; [reflexivity|]. split; reflexivity.
Qed.

(** A token that does not verify in [w] is refused. *)
Lemma refresh_unverified (t : string) (w : World) :
  (forall c, ~ valid_refresh_token t w c) ->
  AuthService.refreshToken t w = (Throw refresh_refused, w).
Proof.
  intros Hno.
  apply (refresh_refused_when t w (User.mk 0 EmptyString EmptyString EmptyString None 0 0)).
  - intros c Hc. destruct (Hno c Hc).
  - discriminate.
Qed.

(** X2. Login, then refresh. Where the refresh secret is configured, and the
    libraries read back what they wrote (the issued token decodes to its
    claims under its secret; the stored hash is not empty and matches the
    token it was made from), the refresh token a login returns is accepted
    for seven days in every world with the credential store the login left,
    and refused from the end of the seventh day on. *)
Theorem login_then_refresh (dto : LoginDto.t) (w : World) (u : User.t) (key : string) :
  stored_email (LoginDto.email dto) w = Some u ->
  bcrypt_compare (LoginDto.password dto) (User.password u) = true ->
  JWT_REFRESH_SECRET (env w) = Some key ->
  key <> EmptyString ->
  let rt := Tokens.refreshToken (issued (User.id u) (User.email u) w) in
  jwt_decode rt key =
    Some (mkClaims (mkPayload (User.id u) (User.email u)) (clock w)
            (clock w + AuthService.days_7)%N) ->
  stored_hash_of rt w <> EmptyString ->
  bcrypt_compare rt (stored_hash_of rt w) = true ->
  exists r w1,
    AuthService.login dto w = (Return r, w1) /\
    AuthResult.refreshToken r = rt /\
    (forall w2,
        users w2 = users w1 -> env w2 = env w ->
        ((clock w2 < clock w + AuthService.days_7)%N ->
         exists tokens w3, AuthService.refreshToken rt w2 = (Return tokens, w3)) /\
        ((clock w + AuthService.days_7 <= clock w2)%N ->
         AuthService.refreshToken rt w2 = (Throw refresh_refused, w2))).
Proof.
  intros Hu Hcmp Hkey Hne rt Hdec Hfull Hself.
  destruct (stored_email_has_id _ _ _ Hu) as [u0 Hu0].
  eexists _, (rotated u w). split; [exact (login_run dto w u Hu Hcmp)|].
  split; [reflexivity|].
  intros w2 Hus Henv.
  assert (Hk : or_else (JWT_REFRESH_SECRET (env w2)) module_secret = Some key).
  { rewrite Henv, Hkey. simpl.
    destruct (String.eqb key EmptyString) eqn:E; [|reflexivity].
    apply String.eqb_eq in E. contradiction. }
  split.
  - intros Hfresh.
    set (c := mkClaims (mkPayload (User.id u) (User.email u)) (clock w)
                (clock w + AuthService.days_7)%N).
    assert (Hv : valid_refresh_token rt w2 c).
    { exists key. split; [exact Hk|]. unfold Jwt.check. rewrite Hdec. cbn [exp].
      destruct (N.leb_spec0 (clock w + AuthService.days_7) (clock w2));
        [lia | reflexivity]. }
    eexists _, _.
    apply (refresh_accepts rt w2 c
             (Prisma.with_refreshToken (Some (stored_hash_of rt w)) (clock w) u0)
             (stored_hash_of rt w) Hv).
    + unfold stored_user. rewrite Hus.
      exact (stored_user_after_update (User.id u) _ (clock w)
               (set_entropy (S (entropy w)) w) u0 Hu0).
    + unfold session_hash, Prisma.with_refreshToken. cbn [User.refreshToken or_else].
      destruct (String.eqb (stored_hash_of rt w) EmptyString) eqn:E; [|reflexivity].
      apply String.eqb_eq in E. contradiction.
    + exact Hself.
  - intros Hexpired. apply refresh_unverified.
    intros c [key2 [Hk2 Hc2]]. rewrite Hk in Hk2. inversion Hk2; subst key2.
    unfold Jwt.check in Hc2. rewrite Hdec in Hc2. cbn [exp] in Hc2.
    destruct (N.leb_spec0 (clock w + AuthService.days_7) (clock w2));
      [discriminate | lia].
Qed.

(** X3. The secret a refresh token is signed with and the secret it is checked
    with are two expressions. With [JWT_REFRESH_SECRET] unset the issuer
    signs under its built-in default, while [refreshToken] checks under
    the secret the JWT module was registered with: every token that does
    not decode under that one is refused, a token the issuer has just
    signed included. *)
Theorem refresh_secret_unset (w : World) :
  JWT_REFRESH_SECRET (env w) = None ->
  AuthService.refresh_secret (env w) = "your-refresh-secret-key" /\
  (forall t,
      (forall key, module_secret = Some key -> jwt_decode t key = None) ->
      AuthService.refreshToken t w = (Throw refresh_refused, w)).
Proof.
  intros Hunset. split.
  - unfold AuthService.refresh_secret. rewrite Hunset. reflexivity.
  - intros t Hno. apply refresh_unverified.
    intros c [key [Hk Hc]]. rewrite Hunset in Hk. simpl in Hk.
    unfold Jwt.check in Hc. rewrite (Hno key Hk) in Hc. discriminate.
Qed.

(** X5. An access token lives fifteen minutes. Where the issued access token
    decodes to its claims under the access secret, it authenticates its
    user in every world with the same configuration that still holds the
    user, as long as the clock is short of fifteen minutes after the
    issue, and is answered 401 from then on. *)
Theorem access_token_lifetime (userId : Id) (mail : string) (w w2 : World) (u : User.t) :
  let at_ := Tokens.accessToken (issued userId mail w) in
  jwt_decode at_ (AuthService.access_secret (env w)) =
    Some (mkClaims (mkPayload userId mail) (clock w)
            (clock w + AuthService.minutes_15)%N) ->
  env w2 = env w ->
  stored_user userId w2 = Some u ->
  ((clock w2 < clock w + AuthService.minutes_15)%N ->
   JwtStrategy.authenticate (Some at_) w2 =
     (Return (AuthUser.mk (User.id u) (User.email u) (User.name u)), w2)) /\
  ((clock w + AuthService.minutes_15 <= clock w2)%N ->
   JwtStrategy.authenticate (Some at_) w2 =
     (Throw (UnauthorizedException "Unauthorized"), w2)).
Proof.
  intros at_ Hdec Henv Hu. split.
  - intros Hfresh.
    apply (authenticate_run at_ w2
             (mkClaims (mkPayload userId mail) (clock w)
                (clock w + AuthService.minutes_15)%N) u); [|exact Hu].
    unfold valid_access_token, Jwt.check. rewrite Henv, Hdec. cbn [exp].
    destruct (N.leb_spec0 (clock w + AuthService.minutes_15) (clock w2));
      [lia | reflexivity].
  - intros Hexpired.
    unfold JwtStrategy.authenticate, bind at 1 2, gets, Jwt.check.
    rewrite Henv, Hdec. cbn [exp].
    destruct (N.leb_spec0 (clock w + AuthService.minutes_15) (clock w2));
      [reflexivity | lia].
Qed.

End Login.

(** ** The second refresh method *)

Section Refresh_by_id.
Context {J : JwtService} {B : Bcrypt} {DS : Datasource}.

Lemma refreshTokens_run (userId : Id) (t : string) (w : World) (u : User.t) (h : string) :
  stored_user userId w = Some u ->
  session_hash u = Some h ->
  bcrypt_compare t h = true ->
  AuthService.refreshTokens userId t w =
  (Return (issued (User.id u) (User.email u) w), rotated u w).
Proof.
  intros Hu Hh Hcmp.
  assert (Hu' : stored_user (User.id u) w = Some u).
  { pose proof (find_some_holds _ _ _ Hu) as Hid. apply Nat.eqb_eq in Hid.
    rewrite Hid. exact Hu. }
  unfold AuthService.refreshTokens, bind at 1, Prisma.user_findUnique_id, gets at 1.
  unfold stored_user in Hu. unfold session_hash in Hh. rewrite Hu, Hh.
  unfold bind at 1, bcrypt.compare, ret at 1. rewrite Hcmp. cbn [negb].
  unfold bind at 1. rewrite generateTokens_run.
  unfold bind at 1. rewrite (updateRefreshToken_run (User.id u) _ w u Hu'). reflexivity.
Qed.

(** X4. [refreshTokens(userId, token)] looks at the stored hash alone. A
    missing user, a user without a hash and a token that does not match
    get the same Unauthorized answer and change nothing. A token that
    matches the stored hash of the user gets a new pair and rotates the
    hash, whatever the string is: no signature and no expiry are read, the
    clock only stamps the new tokens. *)
Theorem refreshTokens_contract (userId : Id) (t : string) (w : World) :
  (stored_user userId w = None ->
   AuthService.refreshTokens userId t w = (Throw access_denied, w)) /\
  (forall u, stored_user userId w = Some u ->
   (session_hash u = None ->
    AuthService.refreshTokens userId t w = (Throw access_denied, w)) /\
   (forall h, session_hash u = Some h ->
    (bcrypt_compare t h = false ->
     AuthService.refreshTokens userId t w = (Throw access_denied, w)) /\
    (bcrypt_compare t h = true ->
     exists u1,
       AuthService.refreshTokens userId t w =
         (Return (issued userId (User.email u) w), rotated u w) /\
       stored_user userId (rotated u w) = Some u1 /\
       User.refreshToken u1 =
         Some (stored_hash_of (Tokens.refreshToken (issued userId (User.email u) w)) w)))).
Proof.
  split.
  - intros Hu. unfold AuthService.refreshTokens, bind, Prisma.user_findUnique_id, gets.
    unfold stored_user in Hu. rewrite Hu. reflexivity.
  - intros u Hu.
    assert (Hid : User.id u = userId).
    { apply find_some_holds in Hu. apply Nat.eqb_eq in Hu. exact Hu. }
    split.
    + intros Hnone.
      unfold AuthService.refreshTokens, bind, Prisma.user_findUnique_id, gets.
      unfold stored_user in Hu. unfold session_hash in Hnone. rewrite Hu, Hnone. reflexivity.
    + intros h Hh. split.
      * intros Hcmp.
        unfold AuthService.refreshTokens, bind at 1, Prisma.user_findUnique_id, gets at 1.
        unfold stored_user in Hu. unfold session_hash in Hh. rewrite Hu, Hh.
        unfold bind at 1, bcrypt.compare, ret at 1. rewrite Hcmp. reflexivity.
      * intros Hcmp. eexists. rewrite <- Hid.
        split; [exact (refreshTokens_run (User.id u) t w u h
                         ltac:(rewrite Hid; exact Hu) Hh Hcmp)|].
        split; [apply stored_user_rotated; rewrite Hid; exact Hu | reflexivity].
Qed.

End Refresh_by_id.

(** ** Registration, then login *)

Section Register_login.
Context {J : JwtService} {B : Bcrypt} {DS : Datasource}.

Lemma stored_email_registered_exact (dto : RegisterDto.t) (w : World) :
  stored_email (RegisterDto.email dto) w = None ->
  exists u,
    stored_email (RegisterDto.email dto) (registered dto w) = Some u /\
    User.password u = bcrypt_hash (RegisterDto.password dto) 10 (entropy w) /\
    author_of u = Author.mk (next_id w) (RegisterDto.email dto) (RegisterDto.name dto).
Proof.
  intros Hnone. unfold stored_email, registered. simpl users.
  rewrite find_map_same by (intro; apply rewrite_token_email).
  rewrite find_app_last. unfold stored_email in Hnone. rewrite Hnone.
  unfold Prisma.user_has_email at 1. simpl User.email. rewrite String.eqb_refl.
  eexists. split; [reflexivity|].
  unfold rewrite_token.
  match goal with |- context [if ?b then _ else _] => destruct b end; split; reflexivity.
Qed.

(** X6. Registration stores a hash of the password, and a login with the same
    email and password then succeeds as the registered user, in every world
    with the credential store the registration left, provided the hash
    matches the password it was made from. *)
Theorem register_then_login (mail : MailService.t) (dto : RegisterDto.t) (w : World) :
  stored_email (RegisterDto.email dto) w = None ->
  bcrypt_compare (RegisterDto.password dto)
    (bcrypt_hash (RegisterDto.password dto) 10 (entropy w)) = true ->
  exists r w1 u,
    AuthService.register mail dto w = (Return r, w1) /\
    stored_email (RegisterDto.email dto) w1 = Some u /\
    User.password u = bcrypt_hash (RegisterDto.password dto) 10 (entropy w) /\
    (forall w2, users w2 = users w1 ->
     exists r2 w3,
       AuthService.login (LoginDto.mk (RegisterDto.email dto) (RegisterDto.password dto)) w2 =
         (Return r2, w3) /\
       AuthResult.user r2 = AuthResult.user r).
Proof.
  intros Hnone Hself.
  destruct (register_run mail dto w Hnone) as [l Hrun].
  destruct (stored_email_registered_exact dto w Hnone) as [u [Hu [Hpw Hauth]]].
  eexists _, _, u. split; [exact Hrun|]. split; [exact Hu|]. split; [exact Hpw|].
  intros w2 Hus.
  assert (Hu2 : stored_email (LoginDto.email
                   (LoginDto.mk (RegisterDto.email dto) (RegisterDto.password dto))) w2 = Some u).
  { unfold stored_email in *. rewrite Hus. exact Hu. }
  eexists _, _. split.
  - apply (login_run _ w2 u Hu2). simpl. rewrite Hpw. exact Hself.
  - simpl. exact Hauth.
Qed.

Lemma emails_rewrite_token (id : Id) (rt : option string) (now : N) (l : list User.t) :
  map User.email (map (rewrite_token id rt now) l) = map User.email l.
Proof.
  rewrite map_map. apply map_ext. intros x. unfold rewrite_token.
  destruct (Prisma.user_has_id id x); reflexivity.
Qed.

Lemma stored_email_none_not_in (mail : string) (w : World) :
  stored_email mail w = None -> ~ In mail (map User.email (users w)).
Proof.
  intros Hnone Hin. apply in_map_iff in Hin. destruct Hin as [x [Hx Hin]].
  pose proof (find_none _ _ Hnone x Hin) as Hno.
  unfold Prisma.user_has_email in Hno. rewrite Hx, String.eqb_refl in Hno. discriminate.
Qed.

(** X7. Registration keeps emails unique: if no two stored users share an
    email before [register], none do after it, whatever it was given and
    however it ended. *)
Theorem register_keeps_emails_unique (mail : MailService.t) (dto : RegisterDto.t) (w : World) :
  NoDup (map User.email (users w)) ->
  NoDup (map User.email (users (snd (AuthService.register mail dto w)))).
Proof.
  intros Hnd.
  destruct (stored_email (RegisterDto.email dto) w) as [u|] eqn:Hu.
  - rewrite (register_conflict mail dto w u Hu). exact Hnd.
  - destruct (register_run mail dto w Hu) as [l Hrun]. rewrite Hrun.
    unfold registered. simpl. rewrite emails_rewrite_token, map_app. simpl.
    apply (Permutation_NoDup (l := RegisterDto.email dto :: map User.email (users w))).
    + apply Permutation_cons_append.
    + constructor; [apply stored_email_none_not_in; exact Hu | exact Hnd].
Qed.

End Register_login.

(** ** What the session operations leave alone *)

Section Accounts.
Context {J : JwtService} {B : Bcrypt} {DS : Datasource}.

Lemma same_accounts_refl (w : World) : same_accounts w w.
Proof. unfold same_accounts. auto. Qed.

Lemma same_accounts_trans (w1 w2 w3 : World) :
  same_accounts w1 w2 -> same_accounts w2 w3 -> same_accounts w1 w3.
Proof.
  unfold same_accounts. intros [A1 [A2 A3]] [B1 [B2 B3]].
  repeat split; congruence.
Qed.

Lemma keeps_ret {A} (a : A) : keeps_accounts (ret a).
Proof. intros w. apply same_accounts_refl. Qed.

Lemma keeps_throw {A} (e : Exception) : keeps_accounts (@throw A e).
Proof. intros w. apply same_accounts_refl. Qed.

Lemma keeps_gets {A} (f : World -> A) : keeps_accounts (gets f).
Proof. intros w. apply same_accounts_refl. Qed.

Lemma keeps_bind {A C} (m : M A) (k : A -> M C) :
  keeps_accounts m -> (forall a, keeps_accounts (k a)) -> keeps_accounts (bind m k).
Proof.
  intros Hm Hk w. unfold bind. specialize (Hm w).
  destruct (m w) as [[a|e] w']; simpl in *; [|exact Hm].
  eapply same_accounts_trans; [exact Hm | apply Hk].
Qed.

Lemma keeps_try_catch {A} (m : M A) (h : Exception -> M A) :
  keeps_accounts m -> (forall e, keeps_accounts (h e)) -> keeps_accounts (try_catch m h).
Proof.
  intros Hm Hh w. unfold try_catch. specialize (Hm w).
  destruct (m w) as [[a|e] w']; simpl in *; [exact Hm|].
  eapply same_accounts_trans; [exact Hm | apply Hh].
Qed.

Lemma keeps_hash (data : string) (rounds : nat) : keeps_accounts (bcrypt.hash data rounds).
Proof. intros w. unfold same_accounts. simpl. auto. Qed.

Lemma keeps_user_update (id : Id) (rt : option string) :
  keeps_accounts (Prisma.user_update_refreshToken id rt).
Proof.
  intros w. destruct (stored_user id w) as [u|] eqn:Hu.
  - rewrite (user_update_run id rt w u Hu). unfold same_accounts. simpl.
    rewrite credentials_rewrite_token. auto.
  - rewrite (user_update_missing id rt w Hu). apply same_accounts_refl.
Qed.

Ltac keeps_step :=
  first
    [ apply keeps_ret | apply keeps_throw | apply keeps_gets
    | apply keeps_hash | apply keeps_user_update
    | apply keeps_bind; [|intro]
    | apply keeps_try_catch; [|intro]
    | match goal with
      | |- keeps_accounts (match ?x with _ => _ end) => destruct x
      end ].

Lemma keeps_generateTokens (userId : Id) (mail : string) :
  keeps_accounts (AuthService.generateTokens userId mail).
Proof.
  unfold AuthService.generateTokens, Jwt.signAsync. cbv zeta. repeat keeps_step.
Qed.

Lemma keeps_updateRefreshToken (userId : Id) (token : string) :
  keeps_accounts (AuthService.updateRefreshToken userId token).
Proof. unfold AuthService.updateRefreshToken. repeat keeps_step. Qed.

Lemma keeps_verify (t : string) (secret : option string) :
  keeps_accounts (Jwt.verify t secret).
Proof. unfold Jwt.verify. repeat keeps_step. Qed.

(** X8. [login], both refresh methods and [logout] write nothing but
    refresh-token hashes (and the update stamp): for every input and every
    outcome the users are the same, in the same order, with the same id,
    email, name, password hash and creation time, and no post or reply is
    touched. *)
Theorem session_operations_keep_accounts
  (dto : LoginDto.t) (t : string) (userId : Id) (w : World) :
  same_accounts w (snd (AuthService.login dto w)) /\
  same_accounts w (snd (AuthService.refreshToken t w)) /\
  same_accounts w (snd (AuthService.refreshTokens userId t w)) /\
  same_accounts w (snd (AuthService.logout userId w)).
Proof.
  assert (H1 : keeps_accounts (AuthService.login dto)).
  { unfold AuthService.login, bcrypt.compare, Prisma.user_findUnique_email.
    repeat first [apply keeps_generateTokens | apply keeps_updateRefreshToken | keeps_step]. }
  assert (H2 : keeps_accounts (AuthService.refreshToken t)).
  { unfold AuthService.refreshToken, bcrypt.compare, Prisma.user_findUnique_id.
    repeat first [apply keeps_generateTokens | apply keeps_updateRefreshToken
                 | apply keeps_verify | keeps_step]. }
  assert (H3 : keeps_accounts (AuthService.refreshTokens userId t)).
  { unfold AuthService.refreshTokens, bcrypt.compare, Prisma.user_findUnique_id.
    repeat first [apply keeps_generateTokens | apply keeps_updateRefreshToken | keeps_step]. }
  assert (H4 : keeps_accounts (AuthService.logout userId)).
  { unfold AuthService.logout. repeat keeps_step. }
  split; [apply H1 | split; [apply H2 | split; [apply H3 | apply H4]]].
Qed.

End Accounts.

(** ** Errors of the store at the boundary of the services *)

Section Boundary.
Context {J : JwtService} {B : Bcrypt} {DS : Datasource}.

(** [handlePrismaError] tests [instanceof] against the class of the runtime
    library, which no error of the store is an instance of: an error of the
    store is thrown again as it came. *)
Lemma translate_store_error (e : Exception) :
  is_store_error e = true -> PrismaErrorHandler.translate e = e.
Proof. destruct e; simpl; intros H; [discriminate H| discriminate H | reflexivity | discriminate H]. Qed.

(** So a [try/catch] whose handler is [handlePrismaError] changes nothing of
    a body that fails with an error of the store. *)
Lemma handled_store_error {A} (m : M A) (w w' : World) (e : Exception) :
  m w = (Throw e, w') ->
  is_store_error e = true ->
  try_catch m (fun error => PrismaErrorHandler.handlePrismaError error) w = (Throw e, w').
Proof.
  intros Hm He. unfold try_catch. rewrite Hm.
  unfold PrismaErrorHandler.handlePrismaError, throw.
  rewrite (translate_store_error e He). reflexivity.
Qed.

(** Translating twice is translating once. *)
Lemma translate_idempotent (e : Exception) :
  PrismaErrorHandler.translate (PrismaErrorHandler.translate e) =
  PrismaErrorHandler.translate e.
Proof.
  destruct e as [m s|code target|code target|m]; simpl; try reflexivity.
  destruct (String.eqb code "P2002"); [reflexivity|].
  destruct (String.eqb code "P2025"); [reflexivity|].
  destruct (String.eqb code "P2003"); reflexivity.
Qed.

(** X10. The handlers that end in [handlePrismaError] translate no error of
    the store. The function leaves every error of the store as it is; a
    handler built on it hands the failure of its body on unchanged, world
    included; and so [create], asked to write a post for a user id with no
    record, throws the store's own foreign-key error [P2003] and writes
    nothing: the caller gets no Bad Request. *)
Theorem store_errors_pass_untranslated
  (mail : MailService.t) (userId : Id) (dto : CreatePostDto.t) (w : World) :
  stored_user userId w = None ->
  (forall e, is_store_error e = true -> PrismaErrorHandler.translate e = e) /\
  (forall A (m : M A) e w',
      m w = (Throw e, w') -> is_store_error e = true ->
      try_catch m (fun error => PrismaErrorHandler.handlePrismaError error) w =
        (Throw e, w')) /\
  PostsService.create mail userId dto w =
    (Throw (ClientKnownRequestError "P2003" None), w) /\
  leaks_store_error (fst (PostsService.create mail userId dto w)) = true.
Proof.
  intros Hu.
  split; [exact translate_store_error|].
  split; [intros A m e w'; exact (handled_store_error m w w' e)|].
  rewrite (create_without_author mail userId dto w Hu). split; reflexivity.
Qed.

(** X9. [logout] has no handler at all: for an id with no user record it
    throws the store's own record-not-found error, untranslated, and writes
    nothing. *)
Theorem logout_leaks_store_error (userId : Id) (w : World) :
  stored_user userId w = None ->
  AuthService.logout userId w = (Throw (ClientKnownRequestError "P2025" None), w) /\
  leaks_store_error (fst (AuthService.logout userId w)) = true.
Proof.
  intros H.
  assert (E : AuthService.logout userId w = (Throw Prisma.P2025, w)).
  { unfold AuthService.logout, bind. rewrite (user_update_missing userId None w H).
    reflexivity. }
  rewrite E. split; reflexivity.
Qed.

End Boundary.

(** ** Ownership is not a field of an update *)

Section Ownership.
Context {DS : Datasource}.

Lemma ownership_rewrite_post (id : Id) (dto : UpdatePostDto.t) (now : N) (l : list Post.t) :
  map ownership (map (rewrite_post id dto now) l) = map ownership l.
Proof.
  rewrite map_map. apply map_ext. intros x. unfold rewrite_post.
  destruct (Prisma.post_has_id id x); reflexivity.
Qed.

(** X11. Whoever calls [update], with whatever fields and whatever the outcome,
    every post keeps its id, its author, its creation time and its file,
    the posts stay in number and order, and no user and no reply is
    touched. *)
Theorem update_keeps_ownership (id userId : Id) (dto : UpdatePostDto.t) (w : World) :
  map ownership (posts (snd (PostsService.update id userId dto w))) = map ownership (posts w) /\
  users (snd (PostsService.update id userId dto w)) = users w /\
  replies (snd (PostsService.update id userId dto w)) = replies w.
Proof.
  destruct (stored_post id w) as [p|] eqn:Hp.
  - destruct (Nat.eq_dec (Post.authorId p) userId) as [Ho|Hne].
    + rewrite (update_own id userId dto w p Hp Ho). simpl.
      rewrite ownership_rewrite_post. auto.
    + rewrite (update_foreign id userId dto w p Hp Hne). auto.
  - rewrite (update_absent id userId dto w Hp). auto.
Qed.

End Ownership.

(** ** Replies *)

Lemma filter_out_last {A} (p : A -> bool) (l : list A) (x : A) :
  Forall (fun y => p y = false) l -> p x = true ->
  filter (fun y => negb (p y)) (l ++ [x]) = l.
Proof.
  intros Hl Hx. rewrite filter_app. simpl. rewrite Hx. simpl. rewrite app_nil_r.
  induction Hl as [|y l Hy Hl IH]; simpl; [reflexivity|].
  rewrite Hy. simpl. rewrite IH. reflexivity.
Qed.

Lemma find_fresh_last {A} (p : A -> bool) (l : list A) (x : A) :
  Forall (fun y => p y = false) l -> p x = true ->
  find p (l ++ [x]) = Some x.
Proof.
  intros Hl Hx. rewrite find_app_last.
  replace (find p l) with (@None A); [rewrite Hx; reflexivity|].
  symmetry. induction Hl as [|y l Hy Hl IH]; simpl; [reflexivity|].
  rewrite Hy. exact IH.
Qed.

Section Replies.
Context {DS : Datasource}.

Lemma createReply_run (postId : Id) (content : string) (userId : Id) (w : World)
  (p : Post.t) (u : User.t) :
  stored_post postId w = Some p ->
  stored_user userId w = Some u ->
  PostsService.createReply postId content userId w =
  (Return (created_reply content postId userId w, author_of u),
   set_replies (replies w ++ [created_reply content postId userId w])
     (set_next_id (S (next_id w)) w)).
Proof.
  intros Hp Hu.
  unfold PostsService.createReply, try_catch, bind at 1, Prisma.post_findUnique, gets at 1.
  unfold stored_post in Hp. rewrite Hp.
  unfold Prisma.reply_create, bind at 1, Prisma.post_findUnique, gets at 1. rewrite Hp.
  unfold bind at 1, Prisma.user_findUnique_id, gets at 1.
  unfold stored_user in Hu. rewrite Hu. reflexivity.
Qed.

(** X12. [createReply] answers Not-Found when the post is absent. When the
    post exists but the acting user has no record it throws the store's
    foreign-key error [P2003] as the store raised it: the handler does not
    recognise the class, so the caller gets no Bad Request. In both cases
    nothing is written. Otherwise it appends one reply, owned by the acting
    user and attached to the post, and touches no other reply, no post and
    no user. *)
Theorem createReply_contract (postId : Id) (content : string) (userId : Id) (w : World) :
  (stored_post postId w = None ->
   PostsService.createReply postId content userId w =
     (Throw (NotFoundException "Post not found"), w)) /\
  (forall p, stored_post postId w = Some p ->
   (stored_user userId w = None ->
    PostsService.createReply postId content userId w =
      (Throw (ClientKnownRequestError "P2003" None), w) /\
    leaks_store_error (fst (PostsService.createReply postId content userId w)) = true) /\
   (forall u, stored_user userId w = Some u ->
    exists r w1,
      PostsService.createReply postId content userId w = (Return (r, author_of u), w1) /\
      Reply.authorId r = userId /\ Reply.postId r = postId /\ Reply.content r = content /\
      replies w1 = replies w ++ [r] /\ posts w1 = posts w /\ users w1 = users w)).
Proof.
  split.
  - intros Hp.
    unfold PostsService.createReply, try_catch, bind, Prisma.post_findUnique, gets.
    unfold stored_post in Hp. rewrite Hp. reflexivity.
  - intros p Hp. split.
    + intros Hu.
      assert (E : PostsService.createReply postId content userId w =
                  (Throw Prisma.P2003, w)).
      { unfold PostsService.createReply, try_catch, bind at 1, Prisma.post_findUnique,
          gets at 1.
        unfold stored_post in Hp. rewrite Hp.
        unfold Prisma.reply_create, bind at 1, Prisma.post_findUnique, gets at 1.
        rewrite Hp.
        unfold bind at 1, Prisma.user_findUnique_id, gets at 1.
        unfold stored_user in Hu. rewrite Hu. reflexivity. }
      rewrite E. split; reflexivity.
    + intros u Hu. eexists _, _.
      split; [exact (createReply_run postId content userId w p u Hp Hu)|].
      simpl. repeat split.
Qed.

(** X13. A reply and its deletion. In a store whose next identifier is not
    taken by a reply, the reply that [createReply] returns is stored under
    its id; any other user who asks for its deletion is refused; and when
    its author deletes it the replies are again exactly what they were. *)
Theorem reply_round_trip
  (postId : Id) (content : string) (userId other : Id) (w : World) (p : Post.t) (u : User.t) :
  stored_post postId w = Some p ->
  stored_user userId w = Some u ->
  Forall (fun r => Reply.id r <> next_id w) (replies w) ->
  exists r w1,
    PostsService.createReply postId content userId w = (Return (r, author_of u), w1) /\
    stored_reply (Reply.id r) w1 = Some r /\
    (other <> userId ->
     PostsService.deleteReply (Reply.id r) other w1 =
       (Throw (ForbiddenException "You can only delete your own replies"), w1)) /\
    (exists w2,
        PostsService.deleteReply (Reply.id r) userId w1 =
          (Return (Message.mk "Reply deleted successfully"), w2) /\
        replies w2 = replies w).
Proof.
  intros Hp Hu Hfresh.
  set (r := created_reply content postId userId w).
  set (w1 := set_replies (replies w ++ [r]) (set_next_id (S (next_id w)) w)).
  assert (Hold : Forall (fun y => Prisma.reply_has_id (Reply.id r) y = false) (replies w)).
  { eapply Forall_impl; [|exact Hfresh]. intros y Hy. apply Nat.eqb_neq. exact Hy. }
  assert (Hnew : Prisma.reply_has_id (Reply.id r) r = true) by apply Nat.eqb_refl.
  assert (Hs : stored_reply (Reply.id r) w1 = Some r).
  { unfold stored_reply. simpl replies. apply find_fresh_last; assumption. }
  exists r, w1. split; [exact (createReply_run postId content userId w p u Hp Hu)|].
  split; [exact Hs|]. split.
  - intros Hne. apply (deleteReply_foreign (Reply.id r) other w1 r Hs).
    simpl. congruence.
  - eexists. split; [apply (deleteReply_own (Reply.id r) userId w1 r Hs); reflexivity|].
    simpl replies. apply filter_out_last; assumption.
Qed.

End Replies.

(** ** Reading one post *)

Section Reading.
Context {DS : Datasource}.

Lemma insert_asc_perm (r : Reply.t) (l : list Reply.t) :
  Permutation (Prisma.insert_asc r l) (r :: l).
Proof.
  induction l as [|q l IH]; simpl; [apply Permutation_refl|].
  destruct (N.leb (Reply.createdAt r) (Reply.createdAt q)).
  - apply Permutation_refl.
  - apply perm_trans with (q :: r :: l); [apply perm_skip; exact IH | apply perm_swap].
Qed.

Lemma insert_asc_sorted (r : Reply.t) (l : list Reply.t) :
  StronglySorted older_first l -> StronglySorted older_first (Prisma.insert_asc r l).
Proof.
  induction 1 as [|q l Hsorted IH Hall]; simpl.
  - constructor; constructor.
  - destruct (N.leb (Reply.createdAt r) (Reply.createdAt q)) eqn:E.
    + apply N.leb_le in E. constructor; [constructor; assumption|].
      constructor; [exact E|].
      eapply Forall_impl; [|exact Hall]. unfold older_first. intros x Hx. lia.
    + apply N.leb_gt in E. constructor; [exact IH|].
      apply (Permutation_Forall (Permutation_sym (insert_asc_perm r l))).
      constructor; [unfold older_first; lia | exact Hall].
Qed.

Lemma orderBy_asc_perm (l : list Reply.t) :
  Permutation (Prisma.orderBy_createdAt_asc l) l.
Proof.
  induction l as [|r l IH]; simpl; [constructor|].
  eapply perm_trans; [apply insert_asc_perm|]. apply perm_skip. exact IH.
Qed.

Lemma orderBy_asc_sorted (l : list Reply.t) :
  StronglySorted older_first (Prisma.orderBy_createdAt_asc l).
Proof.
  induction l as [|r l IH]; simpl; [constructor|]. apply insert_asc_sorted. exact IH.
Qed.

Lemma item_reply_reply_item (w : World) (l : list Reply.t) :
  map Prisma.item_reply (map (Prisma.reply_item w) l) = l.
Proof. rewrite map_map. simpl. apply map_id. Qed.

Lemma findOne_absent (id : Id) (w : World) :
  stored_post id w = None ->
  PostsService.findOne id w = (Throw (NotFoundException "Post not found"), w).
Proof.
  intros H. unfold PostsService.findOne, bind, Prisma.post_findUnique_detail, gets.
  unfold stored_post in H. rewrite H. reflexivity.
Qed.

Lemma findOne_found (id : Id) (w : World) (p : Post.t) :
  stored_post id w = Some p ->
  PostsService.findOne id w =
  (Return (Prisma.mkDetail p
             (option_map author_of (stored_user (Post.authorId p) w))
             (map (Prisma.reply_item w)
                (Prisma.orderBy_createdAt_asc (Prisma.replies_of id w)))), w).
Proof.
  intros H. unfold PostsService.findOne, bind, Prisma.post_findUnique_detail, gets.
  unfold stored_post in H. rewrite H. reflexivity.
Qed.

(** X14. [findOne] answers Not-Found for an id no post has. For a stored post it
    returns the post with its author's id, email and name, and its replies:
    the replies it lists are the stored replies of that post, each once,
    none of another post, oldest first; the world is not changed. *)
Theorem findOne_contract (id : Id) (w : World) :
  (stored_post id w = None ->
   PostsService.findOne id w = (Throw (NotFoundException "Post not found"), w)) /\
  (forall p, stored_post id w = Some p ->
   exists d,
     PostsService.findOne id w = (Return d, w) /\
     Prisma.detail_post d = p /\
     Prisma.detail_author d = option_map author_of (stored_user (Post.authorId p) w) /\
     Permutation (map Prisma.item_reply (Prisma.detail_replies d))
       (filter (fun r => Nat.eqb (Reply.postId r) id) (replies w)) /\
     StronglySorted older_first (map Prisma.item_reply (Prisma.detail_replies d)) /\
     Forall (fun r => Reply.postId r = id /\ In r (replies w))
       (map Prisma.item_reply (Prisma.detail_replies d))).
Proof.
  split; [apply findOne_absent|].
  intros p Hp. eexists. split; [exact (findOne_found id w p Hp)|].
  simpl. rewrite item_reply_reply_item.
  split; [reflexivity|]. split; [reflexivity|].
  split; [apply orderBy_asc_perm|]. split; [apply orderBy_asc_sorted|].
  apply Forall_forall. intros r Hr.
  apply (Permutation_in _ (orderBy_asc_perm _)) in Hr.
  unfold Prisma.replies_of in Hr. apply filter_In in Hr. destruct Hr as [Hin Hpost].
  apply Nat.eqb_eq in Hpost. split; assumption.
Qed.

End Reading.

(** ** The life of a post *)

Section Lifecycle.
Context {DS : Datasource}.

(** X15. From creation to deletion. In a store whose next identifier is not
    taken by a post, a user with a record creates a post: it is returned
    with that user as author, and [findOne] then returns it under its id.
    Another user who asks to delete it is refused. When the author deletes
    it, [findOne] answers Not-Found and the posts are again exactly what
    they were. *)
Theorem post_lifecycle
  (mail : MailService.t) (userId other : Id) (dto : CreatePostDto.t) (w : World) (u : User.t) :
  stored_user userId w = Some u ->
  Forall (fun p => Post.id p <> next_id w) (posts w) ->
  exists post w1,
    PostsService.create mail userId dto w = (Return (post, author_of u), w1) /\
    Post.authorId post = userId /\
    Post.title post = CreatePostDto.title dto /\
    Post.content post = CreatePostDto.content dto /\
    (exists d, PostsService.findOne (Post.id post) w1 = (Return d, w1) /\
               Prisma.detail_post d = post) /\
    (other <> userId ->
     PostsService.remove (Post.id post) other w1 =
       (Throw (ForbiddenException "You can only delete your own posts"), w1)) /\
    (exists w2,
        PostsService.remove (Post.id post) userId w1 =
          (Return (Message.mk "Post deleted successfully"), w2) /\
        PostsService.findOne (Post.id post) w2 =
          (Throw (NotFoundException "Post not found"), w2) /\
        posts w2 = posts w).
Proof.
  intros Hu Hfresh.
  destruct (create_run mail userId dto w u Hu) as [l Hrun].
  set (post := created_post userId dto w) in *.
  set (w1 := set_logs (logs w ++ l) (with_post userId dto w)) in *.
  assert (Hold : Forall (fun y => Prisma.post_has_id (Post.id post) y = false) (posts w)).
  { eapply Forall_impl; [|exact Hfresh]. intros y Hy. apply Nat.eqb_neq. exact Hy. }
  assert (Hnew : Prisma.post_has_id (Post.id post) post = true) by apply Nat.eqb_refl.
  assert (Hs : stored_post (Post.id post) w1 = Some post).
  { unfold stored_post. simpl posts. apply find_fresh_last; assumption. }
  exists post, w1. split; [exact Hrun|].
  split; [reflexivity|]. split; [reflexivity|]. split; [reflexivity|].
  split; [eexists; split; [exact (findOne_found _ w1 post Hs) | reflexivity]|].
  split.
  - intros Hne. apply (remove_foreign (Post.id post) other w1 post Hs). simpl. congruence.
  - destruct (remove_own (Post.id post) userId w1 post Hs eq_refl) as [w2 [Hrm Hposts]].
    assert (Hback : posts w2 = posts w).
    { rewrite Hposts. simpl posts. apply filter_out_last; assumption. }
    exists w2. split; [exact Hrm|]. split; [|exact Hback].
    apply findOne_absent. unfold stored_post. rewrite Hposts. apply find_filter_negb.
Qed.

End Lifecycle.

(** ** Searching and paging *)

Section Paging.
Context {DS : Datasource}.

Lemma in_firstn {A} (n : nat) (l : list A) (x : A) : In x (firstn n l) -> In x l.
Proof.
  intros H. rewrite <- (firstn_skipn n l). apply in_or_app. left. exact H.
Qed.

Lemma in_skipn {A} (n : nat) (l : list A) (x : A) : In x (skipn n l) -> In x l.
Proof.
  intros H. rewrite <- (firstn_skipn n l). apply in_or_app. right. exact H.
Qed.

Lemma findAll_run (page limit : Z) (search : option string) (w : World) :
  (1 <= page)%Z -> (0 <= limit)%Z ->
  PostsService.findAll page limit search w =
  (Return
     (Page.mk
        (map (Prisma.list_item w)
           (firstn (Z.to_nat limit)
              (skipn (Z.to_nat ((page - 1) * limit))
                 (Prisma.orderBy_createdAt_desc
                    (filter (PostsService.where_search search) (posts w))))))
        (List.length (filter (PostsService.where_search search) (posts w)))
        page limit
        (ceil_div (List.length (filter (PostsService.where_search search) (posts w))) limit)),
   w).
Proof.
  intros Hpage Hlimit.
  assert (Hskip : ((page - 1) * limit <? 0)%Z = false) by (apply Z.ltb_ge; nia).
  assert (Htake : (limit <? 0)%Z = false) by (apply Z.ltb_ge; lia).
  unfold PostsService.findAll, try_catch, bind at 1, Prisma.post_findMany, Prisma.window.
  rewrite Hskip, Htake. reflexivity.
Qed.

(** X16. Search. An empty search text is no search text. For any other text,
    and a page from 1 on with a limit from 0 on, [findAll] counts as total
    the stored posts whose title or content contains the text, and every
    post on the page it returns is a stored post that matches; the page
    holds at most [limit] posts. *)
Theorem search_results_match (page limit : Z) (s : string) (w : World) :
  PostsService.findAll page limit (Some EmptyString) w =
  PostsService.findAll page limit None w /\
  ((1 <= page)%Z -> (0 <= limit)%Z -> s <> EmptyString ->
   exists pg,
     PostsService.findAll page limit (Some s) w = (Return pg, w) /\
     Page.total pg = List.length (filter (matches s) (posts w)) /\
     Forall (fun i => matches s (Prisma.item_post i) = true /\
                      In (Prisma.item_post i) (posts w)) (Page.posts pg) /\
     List.length (Page.posts pg) <= Z.to_nat limit).
Proof.
  split; [reflexivity|].
  intros Hpage Hlimit Hs.
  assert (Hw : PostsService.where_search (Some s) = matches s).
  { unfold PostsService.where_search.
    destruct (String.eqb s EmptyString) eqn:E; [|reflexivity].
    apply String.eqb_eq in E. contradiction. }
  pose proof (findAll_run page limit (Some s) w Hpage Hlimit) as Hrun.
  rewrite Hw in Hrun.
  eexists. split; [exact Hrun|].
  cbn [Page.total Page.posts]. split; [reflexivity|]. split.
  - apply Forall_forall. intros i Hi. apply in_map_iff in Hi.
    destruct Hi as [p [Hp Hin]]. subst i. simpl.
    apply in_firstn, in_skipn in Hin.
    apply (Permutation_in _ (orderBy_perm _)) in Hin.
    apply filter_In in Hin. tauto.
  - rewrite length_map, length_firstn. apply Nat.le_min_l.
Qed.

Lemma ceil_div_bounds (total : nat) (limit : Z) :
  (0 < limit)%Z ->
  exists k,
    ceil_div total limit = Finite k /\
    (Z.of_nat total <= k * limit)%Z /\
    ((k - 1) * limit < Z.of_nat total)%Z.
Proof.
  intros Hl. unfold ceil_div.
  destruct (Z.eqb_spec limit 0) as [E|_]; [lia|].
  eexists. split; [reflexivity|].
  pose proof (Z.div_mod (- Z.of_nat total) limit ltac:(lia)) as Hdm.
  pose proof (Z.mod_pos_bound (- Z.of_nat total) limit Hl) as Hb.
  split; nia.
Qed.

(** X17. Pages. With a positive limit and a page from 1 on, the page count
    [findAll] reports is the least number of pages of that limit that
    hold all the matching posts, a page holds
    min(limit, total - (page-1)*limit) posts, and so every page after the
    last one is empty. *)
Theorem page_arithmetic (page limit : Z) (search : option string) (w : World) :
  (1 <= page)%Z -> (0 < limit)%Z ->
  exists pg k,
    PostsService.findAll page limit search w = (Return pg, w) /\
    Page.totalPages pg = Finite k /\
    (Z.of_nat (Page.total pg) <= k * limit)%Z /\
    ((k - 1) * limit < Z.of_nat (Page.total pg))%Z /\
    List.length (Page.posts pg) =
      Nat.min (Z.to_nat limit) (Page.total pg - Z.to_nat ((page - 1) * limit)) /\
    ((k < page)%Z -> Page.posts pg = []).
Proof.
  intros Hpage Hlimit.
  destruct (ceil_div_bounds
              (List.length (filter (PostsService.where_search search) (posts w))) limit Hlimit)
    as [k [Hk [Hup Hlow]]].
  eexists _, k. split; [apply (findAll_run page limit search w Hpage); lia|].
  simpl. split; [exact Hk|]. split; [exact Hup|]. split; [exact Hlow|].
  assert (Hlen :
    List.length
      (map (Prisma.list_item w)
         (firstn (Z.to_nat limit)
            (skipn (Z.to_nat ((page - 1) * limit))
               (Prisma.orderBy_createdAt_desc
                  (filter (PostsService.where_search search) (posts w)))))) =
    Nat.min (Z.to_nat limit)
      (List.length (filter (PostsService.where_search search) (posts w)) -
       Z.to_nat ((page - 1) * limit))).
  { rewrite length_map, length_firstn, length_skipn.
    rewrite (Permutation_length (orderBy_perm _)). reflexivity. }
  split; [exact Hlen|].
  intros Hbeyond. apply length_zero_iff_nil. rewrite Hlen.
  assert (List.length (filter (PostsService.where_search search) (posts w)) -
          Z.to_nat ((page - 1) * limit) = 0); [|lia].
  assert (k * limit <= (page - 1) * limit)%Z by nia.
  lia.
Qed.

End Paging.

(** ** The upload decides the file of a post *)

Section Uploads.
Context {DS : Datasource}.

(** X18. The controller builds [fileUrl] from the upload alone and overwrites
    whatever the request body carried under that name: two requests that
    differ only in the body's [fileUrl] are served identically, and the
    post that is created points to the uploaded file, or to no file when
    nothing was uploaded. *)
Theorem upload_decides_fileUrl
  (mail : MailService.t) (req_user : AuthUser.t) (dto : CreatePostDto.t)
  (sent : option string) (file : option string) (w : World) :
  PostsController.create mail req_user dto file w =
  PostsController.create mail req_user
    (CreatePostDto.mk (CreatePostDto.title dto) (CreatePostDto.content dto)
       (CreatePostDto.published dto) sent) file w /\
  (forall u, stored_user (AuthUser.userId req_user) w = Some u ->
   exists post w1,
     PostsController.create mail req_user dto file w = (Return (post, author_of u), w1) /\
     Post.fileUrl post = PostsController.upload_url file /\
     Post.authorId post = AuthUser.userId req_user).
Proof.
  split; [reflexivity|].
  intros u Hu. unfold PostsController.create.
  destruct (create_run mail (AuthUser.userId req_user)
              (CreatePostDto.mk (CreatePostDto.title dto) (CreatePostDto.content dto)
                 (CreatePostDto.published dto) (PostsController.upload_url file)) w u Hu)
    as [l Hrun].
  eexists _, _. split; [exact Hrun|]. split; reflexivity.
Qed.

End Uploads.

(** ** The reply notification *)

Section Reply_mail.

(** X19. [sendReplyNotificationEmail] never throws: it returns with the message
    id and preview address of a delivery, or with nothing after a failed
    one; it writes to the log and nowhere else, and a failed delivery
    leaves its error line there. *)
Theorem reply_notification_absorbed
  (mail : MailService.t) (to userName postTitle replyContent replierName : string)
  (w : World) :
  (exists r w',
      MailService.sendReplyNotificationEmail mail to userName postTitle replyContent
        replierName w = (Return r, w') /\
      same_but_logs w' w) /\
  (forall e,
      fst (MailService.sendMail mail
             (MailService.reply_notification_options to userName postTitle replyContent
                replierName) w) = Throw e ->
      MailService.sendReplyNotificationEmail mail to userName postTitle replyContent
        replierName w =
      (Return None, set_logs (logs w ++ [reply_notification_failure to e]) w)) /\
  (forall info,
      fst (MailService.sendMail mail
             (MailService.reply_notification_options to userName postTitle replyContent
                replierName) w) = Return info ->
      fst (MailService.sendReplyNotificationEmail mail to userName postTitle replyContent
             replierName w) =
      Return (Some (MailService.mkResult (MailService.info_messageId info)
                      (MailService.info_testMessageUrl info)))).
Proof.
  unfold MailService.sendReplyNotificationEmail, try_catch, bind at 1 3 5, MailService.sendMail.
  destruct (MailService.transporter mail) as [channel|]; simpl.
  - destruct (channel _) as [info|e]; simpl.
    + split; [eexists _, _; split; reflexivity|].
      split; [intros e H; discriminate|].
      intros i H. inversion H. reflexivity.
    + split; [eexists _, _; split; reflexivity|].
      split; [intros e' H; inversion H; reflexivity|].
      intros i H. discriminate.
  - split; [eexists _, _; split; reflexivity|].
    split; [intros e' H; inversion H; reflexivity|].
    intros i H. discriminate.
Qed.

End Reply_mail.

(** * The further properties on concrete worlds *)

Section More_runs.
Import Reference Scenario.

(** Alice logs in to the forum at second 2000 and gets a pair stamped with
    that second; her row holds the hash of the new refresh token, Bob's row
    is as it was. *)
Lemma login_success_witness :
  exists w1,
    AuthService.login (LoginDto.mk "a@x.com" "pw123456") forum_world =
      (Return (AuthResult.mk (Author.mk 1 "a@x.com" "A")
                 (alice_access_at 2000) (alice_refresh_at 2000)), w1) /\
    users w1 =
      [User.mk 1 "a@x.com" "A" (hash "pw123456" 10 0)
         (Some (hash (alice_refresh_at 2000) 10 3)) 1000%N 2000%N; bob] /\
    posts w1 = posts forum_world /\ replies w1 = replies forum_world.
Proof.
  destruct (login_success (LoginDto.mk "a@x.com" "pw123456") forum_world
              alice eq_refl) as [w1 [u1 [H1 [_ [_ [[_ [Hp Hr]] _]]]]]];
    [vm_compute; reflexivity|].
  exists w1. split; [rewrite H1; vm_compute; reflexivity|].
  split; [|split; [exact Hp | exact Hr]].
  replace w1 with (snd (AuthService.login (LoginDto.mk "a@x.com" "pw123456") forum_world))
    by (rewrite H1; reflexivity).
  vm_compute. reflexivity.
Defined.

(** The refresh token of that login is accepted at second 2000 and refused
    at second 606000, seven days after its issue. *)
Lemma login_then_refresh_witness :
  exists r w1,
    AuthService.login (LoginDto.mk "a@x.com" "pw123456") (set_clock 1200%N alice_world) =
      (Return r, w1) /\
    AuthResult.refreshToken r = alice_refresh_at 1200 /\
    (exists tokens w3,
        AuthService.refreshToken (alice_refresh_at 1200) (set_clock 2000%N w1) =
          (Return tokens, w3)) /\
    AuthService.refreshToken (alice_refresh_at 1200) (set_clock 606000%N w1) =
      (Throw refresh_refused, set_clock 606000%N w1).
Proof.
  pose proof (login_then_refresh (LoginDto.mk "a@x.com" "pw123456")
                (set_clock 1200%N alice_world) alice "r3fresh" eq_refl) as H.
  cbv zeta in H.
  destruct H as [r [w1 [H1 [H2 H3]]]];
    [vm_compute; reflexivity | reflexivity | discriminate | vm_compute; reflexivity
    | vm_compute; discriminate | vm_compute; reflexivity |].
  assert (Hw : env w1 = env0).
  { apply (f_equal snd) in H1. simpl in H1. rewrite <- H1. vm_compute. reflexivity. }
  assert (Hrt : Tokens.refreshToken (issued (User.id alice) (User.email alice)
                                       (set_clock 1200%N alice_world)) =
                alice_refresh_at 1200) by (vm_compute; reflexivity).
  rewrite Hrt in *.
  exists r, w1. split; [exact H1|]. split; [exact H2|]. split.
  - apply (H3 (set_clock 2000%N w1)); [reflexivity | exact Hw | vm_compute; reflexivity].
  - apply (H3 (set_clock 606000%N w1)); [reflexivity | exact Hw | vm_compute; discriminate].
Defined.

(** With no refresh secret set, the refresh token the issuer signs for
    Alice is refused by [refreshToken] in the same world. *)
Lemma refresh_secret_unset_witness :
  Tokens.refreshToken (issued 1 "a@x.com" unset_world) =
    encode alice_claims "your-refresh-secret-key" /\
  AuthService.refreshToken (encode alice_claims "your-refresh-secret-key") unset_world =
    (Throw refresh_refused, unset_world).
Proof.
  destruct (refresh_secret_unset unset_world eq_refl) as [_ H].
  split; [vm_compute; reflexivity|].
  apply H. intros key Hk. vm_compute in Hk. inversion Hk. vm_compute. reflexivity.
Defined.

(** Alice's access token, issued at second 1000, is good at second 1899
    and answered 401 at second 1900. *)
Lemma access_token_lifetime_witness :
  JwtStrategy.authenticate (Some alice_access) (set_clock 1899%N alice_world) =
    (Return (AuthUser.mk 1 "a@x.com" "A"), set_clock 1899%N alice_world) /\
  JwtStrategy.authenticate (Some alice_access) (set_clock 1900%N alice_world) =
    (Throw (UnauthorizedException "Unauthorized"), set_clock 1900%N alice_world).
Proof.
  assert (Hat : Tokens.accessToken (issued 1 "a@x.com" alice_world) = alice_access)
    by (vm_compute; reflexivity).
  pose proof (access_token_lifetime 1 "a@x.com" alice_world (set_clock 1899%N alice_world)
                alice) as Hin.
  pose proof (access_token_lifetime 1 "a@x.com" alice_world (set_clock 1900%N alice_world)
                alice) as Hout.
  cbv zeta in Hin, Hout. rewrite Hat in Hin, Hout.
  destruct Hin as [Hin _]; [vm_compute; reflexivity | reflexivity | reflexivity |].
  destruct Hout as [_ Hout]; [vm_compute; reflexivity | reflexivity | reflexivity |].
  split; [apply Hin; vm_compute; reflexivity | apply Hout; vm_compute; discriminate].
Defined.

(** Long after her refresh token has expired, [refreshTokens] still takes
    it from Alice; a wrong string and an unknown user are denied alike. *)
Lemma refreshTokens_contract_witness :
  AuthService.refreshTokens 1 alice_refresh (set_clock 9999999%N alice_world) =
    (Return (Tokens.mk (alice_access_at 9999999) (alice_refresh_at 9999999)),
     rotated alice (set_clock 9999999%N alice_world)) /\
  AuthService.refreshTokens 1 "guess" (set_clock 9999999%N alice_world) =
    (Throw access_denied, set_clock 9999999%N alice_world) /\
  AuthService.refreshTokens 5 alice_refresh (set_clock 9999999%N alice_world) =
    (Throw access_denied, set_clock 9999999%N alice_world).
Proof.
  destruct (refreshTokens_contract 1 alice_refresh (set_clock 9999999%N alice_world))
    as [_ Hfound].
  destruct (Hfound alice eq_refl) as [_ Hhash].
  destruct (Hhash (hash alice_refresh 10 1) eq_refl) as [_ Hok].
  destruct Hok as [u1 [Hrun _]]; [vm_compute; reflexivity|].
  destruct (refreshTokens_contract 1 "guess" (set_clock 9999999%N alice_world))
    as [_ Hfound'].
  destruct (Hfound' alice eq_refl) as [_ Hhash'].
  destruct (Hhash' (hash alice_refresh 10 1) eq_refl) as [Hbad _].
  destruct (refreshTokens_contract 5 alice_refresh (set_clock 9999999%N alice_world))
    as [Hnone _].
  split; [rewrite Hrun; vm_compute; reflexivity|].
  split; [apply Hbad; vm_compute; reflexivity | apply Hnone; reflexivity].
Defined.

(** Alice registers in the empty store and logs in with the same password. *)
Lemma register_then_login_witness :
  exists r w1,
    AuthService.register mail_ok alice_dto empty_world = (Return r, w1) /\
    exists r2 w3,
      AuthService.login (LoginDto.mk "a@x.com" "pw123456") w1 = (Return r2, w3) /\
      AuthResult.user r2 = AuthResult.user r.
Proof.
  destruct (register_then_login mail_ok alice_dto empty_world eq_refl)
    as [r [w1 [u [H1 [_ [_ H4]]]]]]; [vm_compute; reflexivity|].
  exists r, w1. split; [exact H1|]. apply (H4 w1 eq_refl).
Defined.

(** Carol registers in the forum: the three emails are distinct. *)
Lemma register_keeps_emails_unique_witness :
  NoDup (map User.email
           (users (snd (AuthService.register mail_ok (RegisterDto.mk "c@x.com" "pw" "C")
                          forum_world)))).
Proof.
  apply register_keeps_emails_unique. simpl.
  constructor; [simpl; intros [H|[]]; discriminate|].
  constructor; [simpl; tauto|]. constructor.
Defined.

End More_runs.

Section Forum_runs.
Import Reference Scenario.

(** In the forum: no post 9 to reply to; user 42 has no record; Alice
    replies to post 3. *)
Lemma createReply_contract_witness :
  PostsService.createReply 9 "hi" 1 forum_world =
    (Throw (NotFoundException "Post not found"), forum_world) /\
  PostsService.createReply 3 "hi" 42 forum_world =
    (Throw (ClientKnownRequestError "P2003" None), forum_world) /\
  (exists r w1,
      PostsService.createReply 3 "hi" 1 forum_world =
        (Return (r, Author.mk 1 "a@x.com" "A"), w1) /\
      Reply.authorId r = 1 /\ Reply.postId r = 3 /\
      replies w1 = [reply4; r]).
Proof.
  destruct (createReply_contract 9 "hi" 1 forum_world) as [Habsent _].
  destruct (createReply_contract 3 "hi" 42 forum_world) as [_ Hpost].
  destruct (Hpost post3 eq_refl) as [Hnouser _].
  destruct (createReply_contract 3 "hi" 1 forum_world) as [_ Hpost'].
  destruct (Hpost' post3 eq_refl) as [_ Huser].
  destruct (Huser alice eq_refl) as [r [w1 [H1 [H2 [H3 [_ [H5 _]]]]]]].
  split; [exact (Habsent eq_refl)|]. split; [exact (proj1 (Hnouser eq_refl))|].
  exists r, w1. split; [exact H1|]. split; [exact H2|]. split; [exact H3|].
  rewrite H5. reflexivity.
Defined.

(** Alice replies to post 3; Bob may not delete her reply; she deletes it
    and Bob's reply is the only one again. *)
Lemma reply_round_trip_witness :
  exists r w1,
    PostsService.createReply 3 "hi" 1 forum_world = (Return (r, author_of alice), w1) /\
    stored_reply (Reply.id r) w1 = Some r /\
    PostsService.deleteReply (Reply.id r) 2 w1 =
      (Throw (ForbiddenException "You can only delete your own replies"), w1) /\
    (exists w2,
        PostsService.deleteReply (Reply.id r) 1 w1 =
          (Return (Message.mk "Reply deleted successfully"), w2) /\
        replies w2 = [reply4]).
Proof.
  destruct (reply_round_trip 3 "hi" 1 2 forum_world post3 alice eq_refl eq_refl)
    as [r [w1 [H1 [H2 [H3 H4]]]]].
  - constructor; [simpl; discriminate | constructor].
  - exists r, w1. split; [exact H1|]. split; [exact H2|].
    split; [apply H3; discriminate | exact H4].
Defined.

(** Post 3 of the thread is read with its two replies, Bob's first; there
    is no post 9. *)
Lemma findOne_contract_witness :
  PostsService.findOne 9 thread_world =
    (Throw (NotFoundException "Post not found"), thread_world) /\
  (exists d,
      PostsService.findOne 3 thread_world = (Return d, thread_world) /\
      Prisma.detail_post d = post3 /\
      Prisma.detail_author d = Some (Author.mk 1 "a@x.com" "A") /\
      map Prisma.item_reply (Prisma.detail_replies d) = [reply4; reply7]).
Proof.
  destruct (findOne_contract 9 thread_world) as [Habsent _].
  destruct (findOne_contract 3 thread_world) as [_ Hfound].
  destruct (Hfound post3 eq_refl) as [d [H1 [H2 [H3 _]]]].
  split; [exact (Habsent eq_refl)|].
  exists d. split; [exact H1|]. split; [exact H2|]. split; [rewrite H3; reflexivity|].
  assert (Hd : Return d = fst (PostsService.findOne 3 thread_world)) by (rewrite H1; reflexivity).
  vm_compute in Hd. inversion Hd. reflexivity.
Defined.

(** Alice creates her first post; Bob may not delete it; she deletes it and
    it is gone. *)
Lemma post_lifecycle_witness :
  exists post w1,
    PostsService.create mail_down 1 first_post alice_world =
      (Return (post, Author.mk 1 "a@x.com" "A"), w1) /\
    Post.authorId post = 1 /\
    PostsService.remove (Post.id post) 2 w1 =
      (Throw (ForbiddenException "You can only delete your own posts"), w1) /\
    (exists w2,
        PostsService.remove (Post.id post) 1 w1 =
          (Return (Message.mk "Post deleted successfully"), w2) /\
        PostsService.findOne (Post.id post) w2 =
          (Throw (NotFoundException "Post not found"), w2) /\
        posts w2 = []).
Proof.
  destruct (post_lifecycle mail_down 1 2 first_post alice_world alice eq_refl)
    as [post [w1 [H1 [H2 [_ [_ [_ [H6 H7]]]]]]]]; [constructor|].
  exists post, w1. split; [exact H1|]. split; [exact H2|].
  split; [apply H6; discriminate | exact H7].
Defined.

(** Searching the forum for "Later" finds the one post of that title. *)
Lemma search_results_match_witness :
  exists pg,
    PostsService.findAll 1 10 (Some "Later") forum_world = (Return pg, forum_world) /\
    Page.total pg = 1 /\
    Forall (fun i => matches "Later" (Prisma.item_post i) = true) (Page.posts pg).
Proof.
  destruct (search_results_match 1 10 "Later" forum_world) as [_ H].
  destruct H as [pg [H1 [H2 [H3 _]]]]; [lia | lia | discriminate |].
  exists pg. split; [exact H1|]. split; [rewrite H2; vm_compute; reflexivity|].
  eapply Forall_impl; [|exact H3]. intros i [Hi _]. exact Hi.
Defined.

(** The forum's three posts in pages of two: two pages, one post on the
    second, none on the third. *)
Lemma page_arithmetic_witness :
  (exists pg,
      PostsService.findAll 2 2 None forum_world = (Return pg, forum_world) /\
      Page.totalPages pg = Finite 2 /\
      List.length (Page.posts pg) = 1) /\
  (exists pg,
      PostsService.findAll 3 2 None forum_world = (Return pg, forum_world) /\
      Page.posts pg = []).
Proof.
  destruct (page_arithmetic 2 2 None forum_world) as [pg [k [H1 [H2 [H3 [H4 [H5 _]]]]]]];
    [lia | lia |].
  destruct (page_arithmetic 3 2 None forum_world) as [pg3 [k3 [G1 [_ [_ [G4 [_ G6]]]]]]];
    [lia | lia |].
  assert (Ht : Page.total pg = 3).
  { assert (E : Return pg = fst (PostsService.findAll 2 2 None forum_world))
      by (rewrite H1; reflexivity).
    vm_compute in E. inversion E. reflexivity. }
  assert (Ht3 : Page.total pg3 = 3).
  { assert (E : Return pg3 = fst (PostsService.findAll 3 2 None forum_world))
      by (rewrite G1; reflexivity).
    vm_compute in E. inversion E. reflexivity. }
  split.
  - exists pg. split; [exact H1|]. rewrite Ht in *. split.
    + rewrite H2. f_equal. lia.
    + rewrite H5. reflexivity.
  - exists pg3. split; [exact G1|]. apply G6. rewrite Ht3 in G4. lia.
Defined.

(** Alice posts with an upload while her request body names another file:
    the post points to the upload. *)
Lemma upload_decides_fileUrl_witness :
  exists post w1,
    PostsController.create mail_ok (AuthUser.mk 1 "a@x.com" "A")
      (CreatePostDto.mk "T" "C" (Some true) (Some "https://elsewhere/x.png"))
      (Some "1730-42.jpg") alice_world =
      (Return (post, Author.mk 1 "a@x.com" "A"), w1) /\
    Post.fileUrl post = Some "/uploads/1730-42.jpg".
Proof.
  destruct (upload_decides_fileUrl mail_ok (AuthUser.mk 1 "a@x.com" "A")
              (CreatePostDto.mk "T" "C" (Some true) (Some "https://elsewhere/x.png"))
              None (Some "1730-42.jpg") alice_world) as [_ H].
  destruct (H alice eq_refl) as [post [w1 [H1 [H2 _]]]].
  exists post, w1. split; [exact H1 | exact H2].
Defined.

(** With the channel down, a reply notification to Alice returns nothing
    and leaves one error line. *)
Lemma reply_notification_absorbed_witness :
  MailService.sendReplyNotificationEmail mail_down "a@x.com" "A" "T" "R" "B" empty_world =
    (Return None,
     set_logs [reply_notification_failure "a@x.com" (Error "connect ECONNREFUSED")]
       empty_world).
Proof.
  destruct (reply_notification_absorbed mail_down "a@x.com" "A" "T" "R" "B" empty_world)
    as [_ [H _]].
  exact (H (Error "connect ECONNREFUSED") eq_refl).
Defined.

(** Logging out user 5, who has no record, fails with the store's error. *)
Lemma logout_leaks_store_error_witness :
  AuthService.logout 5 alice_world =
    (Throw (ClientKnownRequestError "P2025" None), alice_world) /\
  leaks_store_error (fst (AuthService.logout 5 alice_world)) = true.
Proof. exact (logout_leaks_store_error 5 alice_world eq_refl). Defined.

(** User 42 has no record: a post in their name fails with the store's
    foreign-key error as the store raised it. The same code in an error of
    the class the handler knows would have become a Bad Request. *)
Lemma store_errors_pass_untranslated_witness :
  PostsService.create mail_ok 42 first_post forum_world =
    (Throw (ClientKnownRequestError "P2003" None), forum_world) /\
  PrismaErrorHandler.translate (ClientKnownRequestError "P2003" None) =
    ClientKnownRequestError "P2003" None /\
  PrismaErrorHandler.translate (PrismaClientKnownRequestError "P2003" None) =
    HttpException "Foreign key constraint failed" BAD_REQUEST.
Proof.
  destruct (store_errors_pass_untranslated mail_ok 42 first_post forum_world eq_refl)
    as [Ht [_ [Hc _]]].
  split; [exact Hc|]. split; [apply Ht; reflexivity | reflexivity].
Defined.

End Forum_runs.
